(** * Binary String Toolkit ([src/bstrings.c]): a shallow embedding

    The C program is embedded function by function.  Integers of type
    [int] are values of [Z]; the places where the C arithmetic is only
    defined on part of [Z] (the product [string_width*2], the remainder
    by that product) are written out and lead to the outcome [Undef].
    Bytes are [ascii] (eight bits), text written to a stream is a
    [list ascii], a heap block is a list of cells that records which
    positions were ever written.

    Platform conventions fixed by the embedding: [int] has 32 bits,
    plain [char] is signed (the source relies on GCC, see its case
    ranges), [EOF] is [-1], [EXIT_SUCCESS] is [0] and [EXIT_FAILURE]
    is [1]. *)

From Stdlib Require Import ZArith List Ascii String Lia Bool.
From Stdlib Require Import DecimalString HexadecimalString Sorted.
Import ListNotations.
Local Open Scope Z_scope.

(* ================================================================= *)
(** ** C values: [int], [char], text *)

Module C.

Definition INT_MIN : Z := -2147483648.
Definition INT_MAX : Z := 2147483647.

(** [in_int z]: the mathematical result [z] is representable in [int]. *)
Definition in_int (z : Z) : bool := (INT_MIN <=? z) && (z <=? INT_MAX).

Definition EOF : Z := -1.
Definition EXIT_SUCCESS : Z := 0.
Definition EXIT_FAILURE : Z := 1.

(** The byte held in a [char] object, read as unsigned. *)
Definition byte_value (b : ascii) : Z := Z.of_N (N_of_ascii b).

(** [c = ptr[i]]: a (signed) [char] widened to [int]. *)
Definition char_to_int (b : ascii) : Z :=
  if byte_value b <? 128 then byte_value b else byte_value b - 256.

(** [putchar(c)] and [(char)c]: the [int] converted to one byte. *)
Definition int_to_byte (c : Z) : ascii := ascii_of_N (Z.to_N (c mod 256)).

(** Why an execution has no defined result. *)
Inductive undefined : Type :=
| SignedOverflow
| DivisionByZero
| OutOfBounds
| NullDereference.

(** Outcome of a piece of code that has no I/O failure path of its own. *)
Inductive run (A : Type) : Type :=
| Done (a : A)
| Undef (u : undefined).
Arguments Done {A} a.
Arguments Undef {A} u.

Definition text (s : string) : list ascii := list_ascii_of_string s.

Definition nl : ascii := "010"%char.
Definition dquote : ascii := "034"%char.
Definition NUL : ascii := "000"%char.

(** [printf("%d", n)] *)
Definition fmt_d (n : Z) : list ascii :=
  text (DecimalString.NilZero.string_of_int (Z.to_int n)).

(** [printf("%02x", n)]: the [int] is read as [unsigned int], printed in
    lowercase hexadecimal and padded with zeros to two digits. *)
Definition fmt_02x (n : Z) : list ascii :=
  let ds := text (HexadecimalString.NilZero.string_of_uint
                    (N.to_hex_uint (Z.to_N (n mod 4294967296)))) in
  match ds with
  | [d] => ["0"%char; d]
  | _ => ds
  end.

(** [snprintf(dst, size, "%s", s)]: what ends up in [dst] before the
    terminating null. *)
Definition snprintf_s (size : Z) (s : list ascii) : list ascii :=
  firstn (Z.to_nat (size - 1)) s.

End C.
Import C.

(* ================================================================= *)
(** ** The literal formatter: [output_hex_escaped_string] *)

Module Formatter.

(** The locals of the function that live across loop iterations, and
    the text written to standard output so far. *)
Record state : Type := mkState {
  ai : Z;
  invalidhexchar : Z;
  out : list ascii
}.

Definition putchar (c : Z) (st : state) : state :=
  mkState (ai st) (invalidhexchar st) (out st ++ [int_to_byte c]).

Definition printf (s : list ascii) (st : state) : state :=
  mkState (ai st) (invalidhexchar st) (out st ++ s).

(** [case 48 ... 57: case 65 ... 70: case 97 ... 102:] *)
Definition is_hex_case (c : Z) : bool :=
  ((48 <=? c) && (c <=? 57)) || ((65 <=? c) && (c <=? 70))
  || ((97 <=? c) && (c <=? 102)).

(** The inner switch on the output language, lines 142-156. *)
Definition wrap_switch (output_lang : Z) (st : state) : state :=
  match output_lang with
  | 1 =>
      let st := if negb (ai st =? 0) then putchar 34 st else st in
      let st := if negb (ai st =? 0) then putchar 10 st else st in
      putchar 34 st
  | 2 =>
      let st := if negb (ai st =? 0) then putchar 34 st else st in
      let st := if negb (ai st =? 0) then putchar 10 st else st in
      let st := printf (text "buffer += ") st in
      putchar 34 st
  | _ =>
      if negb (ai st =? 0) then putchar 10 st else st
  end.

(** Lines 132-169: the three hexadecimal case ranges.  The product
    [string_width*2] must be an [int] and the divisor must not be zero;
    [%] is the C remainder, [Z.rem]. *)
Definition hex_case (output_lang string_width c : Z) (st : state)
  : run state :=
  let emitted :=
    if Z.rem (ai st) 2 =? 0 then
      let wrapped :=
        if negb (string_width =? 0) then
          let m := string_width * 2 in
          if negb (in_int m) then Undef SignedOverflow
          else if m =? 0 then Undef DivisionByZero
          else if Z.rem (ai st) m =? 0
               then Done (wrap_switch output_lang st)
               else Done st
        else Done st in
      match wrapped with
      | Done st => Done (putchar c (putchar 120 (putchar 92 st)))
      | Undef u => Undef u
      end
    else Done (putchar c st) in
  match emitted with
  | Done st => Done (mkState (ai st + 1) (invalidhexchar st) (out st))
  | Undef u => Undef u
  end.

(** Lines 171-181: the [default] case with its inner switch. *)
Definition default_case (c : Z) (st : state) : state :=
  if c =? EOF then st
  else if c =? 10 then st
  else if c =? 0 then st
  else mkState (ai st) (invalidhexchar st + 1) (out st).

(** The body of the [for] loop for one character [c]. *)
Definition loop_body (output_lang string_width c : Z) (st : state)
  : run state :=
  if is_hex_case c then hex_case output_lang string_width c st
  else Done (default_case c st).

(** [for (i = 0; i < *array_size; i++)]: [n] iterations remain, the next
    index is [i].  A read outside the block is undefined. *)
Fixpoint scan (ptr_char_array : list ascii) (output_lang string_width : Z)
  (n : nat) (i : Z) (st : state) : run state :=
  match n with
  | O => Done st
  | S n' =>
      if i <? 0 then Undef OutOfBounds else
      match nth_error ptr_char_array (Z.to_nat i) with
      | None => Undef OutOfBounds
      | Some b =>
          match loop_body output_lang string_width (char_to_int b) st with
          | Done st' =>
              scan ptr_char_array output_lang string_width n' (i + 1) st'
          | Undef u => Undef u
          end
      end
  end.

(** Lines 102-108. *)
Definition declaration (verbose_flag : bool) (output_lang : Z)
  : list ascii :=
  if verbose_flag then
    match output_lang with
    | 1 => text "unsigned char buffer[] =" ++ [nl]
    | 2 => text "buffer =  " ++ [dquote; dquote; nl]
    | _ => []
    end
  else [].

(** Lines 186-190. *)
Definition closing (output_lang : Z) : list ascii :=
  match output_lang with
  | 1 => [dquote]
  | 2 => [dquote]
  | _ => []
  end ++ [nl].

(** Lines 192-195. *)
Definition warning (verbose_flag : bool) (invalid : Z) : list ascii :=
  if verbose_flag && (0 <? invalid) then
    text "[-] Warning: " ++ fmt_d invalid
      ++ text " non-hexadecimal character(s) detected in input." ++ [nl]
  else [].

(** The whole function.  The two file-scope flags are arguments; the
    result is the text written to standard output. *)
Definition output_hex_escaped_string (verbose_flag interactive_flag : bool)
  (ptr_char_array : list ascii) (array_size output_lang string_width : Z)
  : run (list ascii) :=
  let st := mkState 0 0 [] in
  let st := if interactive_flag then putchar 10 st else st in
  let st := printf (declaration verbose_flag output_lang) st in
  match scan ptr_char_array output_lang string_width
             (Z.to_nat array_size) 0 st with
  | Done st =>
      Done (out st ++ closing output_lang
              ++ warning verbose_flag (invalidhexchar st))
  | Undef u => Undef u
  end.

End Formatter.
Import Formatter.

(** The output syntaxes and the value [main] stores in [output_lang]. *)
Inductive syntax : Type := Plain | CLiteral | PythonLiteral.

Definition lang_code (s : syntax) : Z :=
  match s with
  | Plain => 0
  | CLiteral => 1
  | PythonLiteral => 2
  end.

Definition len {A : Type} (l : list A) : Z := Z.of_nat (List.length l).

(* ================================================================= *)
(** ** Heap blocks: [allocate_dynamic_memory], [change_dynamic_memory]

    A block is the list of its cells; a cell is [None] until it is
    written.  A store past the end of the block does not change the
    block; it is kept in [overrun], so that it can be reasoned about.
    The allocator is taken to succeed, so the error branches of the two
    wrappers (a message and [exit(EXIT_FAILURE)]) are not entered. *)

Module Heap.

Definition cell : Type := option ascii.

Record block : Type := mkBlock {
  cells : list cell;
  overrun : list (Z * ascii)
}.

Definition allocate_dynamic_memory (alloc_size : Z) : block :=
  mkBlock (repeat None (Z.to_nat alloc_size)) [].

(** [realloc]: the old content up to the smaller of the two sizes, then
    fresh cells. *)
Definition change_dynamic_memory (ptr : block) (new_size : Z) : block :=
  let n := Z.to_nat new_size in
  mkBlock (firstn n (cells ptr) ++ repeat None (n - List.length (cells ptr)))
          (overrun ptr).

Fixpoint set_nth (n : nat) (b : ascii) (l : list cell) : list cell :=
  match l, n with
  | [], _ => []
  | _ :: t, O => Some b :: t
  | x :: t, S n' => x :: set_nth n' b t
  end.

(** [ptr[i] = b] *)
Definition store (ptr : block) (i : Z) (b : ascii) : block :=
  if (0 <=? i) && (i <? len (cells ptr))
  then mkBlock (set_nth (Z.to_nat i) b (cells ptr)) (overrun ptr)
  else mkBlock (cells ptr) (overrun ptr ++ [(i, b)]).

Fixpoint store_all (ptr : block) (i : Z) (bs : list ascii) : block :=
  match bs with
  | [] => ptr
  | b :: bs' => store_all (store ptr i b) (i + 1) bs'
  end.

(** What a reader finds in the block: the byte written, or for a cell
    never written whatever the heap held there, [junk i]. *)
Fixpoint content_from (junk : Z -> ascii) (i : Z) (l : list cell)
  : list ascii :=
  match l with
  | [] => []
  | Some b :: t => b :: content_from junk (i + 1) t
  | None :: t => junk i :: content_from junk (i + 1) t
  end.

Definition content (junk : Z -> ascii) (ptr : block) : list ascii :=
  content_from junk 0 (cells ptr).

End Heap.
Import Heap.

(* ================================================================= *)
(** ** The bad-character generator: [generate_badchar_sequence] *)

Definition BADCHAR_HEX_SEQLEN : Z := 510.
Definition MAX_FILENAME_LENGTH : Z := 512.
Definition MAX_ARGUMENT_LENGTH : Z := 255.

(** [sprintf(ptr + length, "%02x", i)]: stores the digits and the
    terminating null, returns the number of digits. *)
Definition sprintf_02x (ptr : block) (length i : Z) : block * Z :=
  let s := fmt_02x i in
  (store_all ptr length (s ++ [NUL]), len s).

(** The values [i] takes in [for (i = lo; i < hi; i++)]. *)
Definition for_range (lo hi : Z) : list Z :=
  map (fun k => lo + Z.of_nat k) (seq 0 (Z.to_nat (hi - lo))).

Definition badchar_step (acc : block * Z) (i : Z) : block * Z :=
  let (ptr_badchar_array, length) := acc in
  let (ptr', n) := sprintf_02x ptr_badchar_array length i in
  (ptr', length + n).

Definition generate_badchar_sequence : block :=
  let ptr_badchar_array := allocate_dynamic_memory (1 * BADCHAR_HEX_SEQLEN) in
  fst (fold_left badchar_step (for_range 1 256) (ptr_badchar_array, 0)).

(* ================================================================= *)
(** ** Processes: two output streams, [exit], undefined behaviour *)

Module Proc.

Record streams : Type := mkStreams {
  stdout : list ascii;
  stderr : list ascii
}.

Inductive result (A : Type) : Type :=
| Ret (a : A) (s : streams)
| Exit (status : Z) (s : streams)
| Fault (u : undefined) (s : streams).
Arguments Ret {A} a s.
Arguments Exit {A} status s.
Arguments Fault {A} u s.

Definition proc (A : Type) : Type := streams -> result A.

Definition ret {A : Type} (a : A) : proc A := fun s => Ret a s.

Definition bind {A B : Type} (c : proc A) (k : A -> proc B) : proc B :=
  fun s =>
    match c s with
    | Ret a s' => k a s'
    | Exit n s' => Exit n s'
    | Fault u s' => Fault u s'
    end.

Definition print_out (t : list ascii) : proc unit :=
  fun s => Ret tt (mkStreams (stdout s ++ t) (stderr s)).

Definition print_err (t : list ascii) : proc unit :=
  fun s => Ret tt (mkStreams (stdout s) (stderr s ++ t)).

Definition exit {A : Type} (status : Z) : proc A := fun s => Exit status s.

Definition fault {A : Type} (u : undefined) : proc A := fun s => Fault u s.

Definition when (b : bool) (c : proc unit) : proc unit :=
  if b then c else ret tt.

End Proc.
Import Proc.

Notation "x <- c ;; k" := (bind c (fun x => k))
  (at level 61, c at next level, right associativity).
Notation "c ;;; k" := (bind c (fun _ => k))
  (at level 61, right associativity).

(* ================================================================= *)
(** ** The input collector: [read_and_store_char_input], [read_from_file] *)

Module Collector.

(** One round of the [while] loop of lines 276-281 for the character
    [c] that [getchar] returned. *)
Definition store_char (c : Z) (acc : block * Z * Z) : run (block * Z * Z) :=
  let '(ptr_char_array, array_size, i) := acc in
  let ptr_char_array := store ptr_char_array i (int_to_byte c) in
  if negb (in_int (array_size + 1)) then Undef SignedOverflow else
  let array_size := array_size + 1 in
  let ptr_char_array := change_dynamic_memory ptr_char_array (1 * array_size) in
  Done (ptr_char_array, array_size, i + 1).

(** The loop: [input] is what the stream still holds; at its end
    [getchar] returns [EOF]. *)
Fixpoint store_loop (input : list ascii) (acc : block * Z * Z)
  : run (block * Z * Z) :=
  match input with
  | [] => Done acc
  | b :: rest =>
      match store_char (byte_value b) acc with
      | Done acc' => store_loop rest acc'
      | Undef u => Undef u
      end
  end.

(** Returns the block and the updated [*array_size]. *)
Definition read_and_store_char_input (interactive_flag : bool)
  (stdin : list ascii) (array_size : Z) : proc (block * Z) :=
  when interactive_flag
    (print_out (text "[+] Hit CTRL-D twice to terminate input." ++ [nl])) ;;;
  let ptr_char_array := allocate_dynamic_memory 1 in
  match store_loop stdin (ptr_char_array, array_size, 0) with
  | Done (ptr_char_array, array_size, _) => ret (ptr_char_array, array_size)
  | Undef u => fault u
  end.

(** One round of the [while] loop of lines 330-354; a null pointer is
    [None]. *)
Definition file_char (mode c : Z) (acc : option block * Z * Z)
  : run (option block * Z * Z) :=
  let '(ptr_char_array, array_size, i) := acc in
  match mode with
  | 1 =>
      match ptr_char_array with
      | None => Undef NullDereference
      | Some p =>
          let p := store p i (int_to_byte c) in
          if negb (in_int (array_size + 1)) then Undef SignedOverflow else
          let array_size := array_size + 1 in
          Done (Some (change_dynamic_memory p (1 * array_size)),
                array_size, i + 1)
      end
  | 2 =>
      match ptr_char_array with
      | None => Undef NullDereference
      | Some p =>
          let xc := snprintf_s 3 (fmt_02x c) in
          let p := store p i (nth 0 xc NUL) in
          let p := store p (i + 1) (nth 1 xc NUL) in
          if negb (in_int (array_size + 2)) then Undef SignedOverflow else
          let array_size := array_size + 2 in
          Done (Some (change_dynamic_memory p (1 * array_size)),
                array_size, i + 2)
      end
  | _ => Done acc
  end.

Fixpoint file_loop (mode : Z) (file : list ascii)
  (acc : option block * Z * Z) : run (option block * Z * Z) :=
  match file with
  | [] => Done acc
  | b :: rest =>
      match file_char mode (byte_value b) acc with
      | Done acc' => file_loop mode rest acc'
      | Undef u => Undef u
      end
  end.

(** Lines 358-359: the dump of mode 0. *)
Definition dump (file : list ascii) : list ascii :=
  flat_map (fun b => fmt_02x (byte_value b)) file.

(** [fs filename] is the content of the file when [fopen(filename, "r")]
    succeeds and [None] when it returns a null pointer.  In mode 0 the
    caller passes a null [array_size], which is not used. *)
Definition read_from_file (fs : list ascii -> option (list ascii))
  (filename : list ascii) (array_size : Z) (mode : Z)
  : proc (option block * Z) :=
  match fs filename with
  | None =>
      print_out (text "Error: input filename " ++ [dquote] ++ filename
                 ++ [dquote] ++ text " cannot be read." ++ [nl]) ;;;
      exit EXIT_FAILURE
  | Some file =>
      if 1 <=? mode then
        let init : run (option block * Z) :=
          match mode with
          | 1 => Done (Some (allocate_dynamic_memory 1), array_size)
          | 2 =>
              if negb (in_int (array_size + 1)) then Undef SignedOverflow
              else Done (Some (allocate_dynamic_memory (1 * 2)),
                         array_size + 1)
          | _ => Done (None, array_size)
          end in
        match init with
        | Undef u => fault u
        | Done (ptr_char_array, array_size) =>
            match file_loop mode file (ptr_char_array, array_size, 0) with
            | Done (ptr_char_array, array_size, _) =>
                ret (ptr_char_array, array_size)
            | Undef u => fault u
            end
        end
      else
        print_out (dump file) ;;;
        ret (None, array_size)
  end.

End Collector.
Import Collector.

(* ================================================================= *)
(** ** The program: [print_usage], [print_version], [main] *)

Definition line (s : string) : list ascii := text s ++ [nl].

Definition print_usage (program_name : list ascii) : list ascii :=
  text "Usage: " ++ program_name ++ line " [OPTION]..."
  ++ line " Convert input to specified binary string format." ++ [nl]
  ++ line " At least one of the below options must be given:"
  ++ line "    -D, --dump-file=FILE    Dump content of file FILE in hexadecimal format"
  ++ line "    -x, --hex-escape        Escape input hexadecimal string"
  ++ line "    -b, --gen-badchar       Generate a bad character sequence string"
  ++ line "    "
  ++ line " The below switches are optional:"
  ++ line "    -f, --file=FILE         Read input from file FILE instead of stdin"
  ++ line "    -w, --width=bytes       Break binary strings to specified length in bytes"
  ++ line "    -s, --syntax=LANG       Syntax of the binary string output"
  ++ line "    -h, --help              Display this help"
  ++ line "       --interactive        Enter interactive mode"
  ++ line "       --verbose            Enable verbose output"
  ++ line "       --version            Print version information"
  ++ line "    ".

(** What [getopt_long] (GNU C library) hands back on one call that
    does not end the option loop: either it stored [val] through the
    flag address of a long option and returned 0, or it returned [opt]
    with [optarg] and [optopt] set. *)
Inductive flag_address : Type := verbose_flag_addr | interactive_flag_addr.

Inductive getopt_return : Type :=
| FlagStored (flag : flag_address) (val : bool)
| Returned (opt : Z) (optarg : option (list ascii)) (optopt : Z).

(** One run of the program, as far as the command line goes: the calls
    of [getopt_long] in order (the last one, which returns -1, left
    out) and the value of [optind] after it. *)
Record invocation : Type := mkInvocation {
  argc : Z;
  argv0 : list ascii;
  parsed : list getopt_return;
  optind : Z
}.

(** The variables of [main] that the option loop assigns, with the two
    file-scope flags. *)
Record vars : Type := mkVars {
  verbose_flag : bool;
  interactive_flag : bool;
  doOutputHexEscapedString : bool;
  doOutputBadCharString : bool;
  doHexDumpFile : bool;
  doReadFromFile : bool;
  doLimitBinaryStringWidth : bool;
  fread_filename : list ascii;
  output_lang : Z;
  arg_lang : list ascii;
  string_width : Z
}.

(** Lines 379-380 initialise the last declarator only, and the two
    character arrays are not initialised: what these objects hold at
    the start is not determined by the program. *)
Record indeterminate : Type := mkIndeterminate {
  ind_doOutputHexEscapedString : bool;
  ind_doOutputBadCharString : bool;
  ind_doHexDumpFile : bool;
  ind_doReadFromFile : bool;
  ind_fread_filename : list ascii;
  ind_arg_lang : list ascii
}.

Definition initial_vars (g : indeterminate) : vars :=
  mkVars false false
    (ind_doOutputHexEscapedString g) (ind_doOutputBadCharString g)
    (ind_doHexDumpFile g) (ind_doReadFromFile g) false
    (ind_fread_filename g) 0 (ind_arg_lang g) 0.

Definition list_ascii_eqb (a b : list ascii) : bool :=
  String.eqb (string_of_list_ascii a) (string_of_list_ascii b).

Section Program.

(** [include/version.h] is not part of the sources at hand. *)
Variables program_version program_build_time : list ascii.
Variable program_build : option (list ascii).

(** [atoi] of the C library. *)
Variable atoi : list ascii -> Z.

(** The outside world: standard input up to its end, the files that
    can be opened for reading, and the bytes found in heap cells that
    were never written. *)
Variable stdin_content : list ascii.
Variable fs : list ascii -> option (list ascii).
Variable junk : Z -> ascii.

Definition print_version (program_name : list ascii) : list ascii :=
  text "Binary String Toolkit (" ++ program_version ++ line ")"
  ++ line "Copyright (C) 2018 Nicolas Chabbey"
  ++ line "This program is free software: you can redistribute it and/or modify it"
  ++ line "under the terms of the GNU General Public License as published by the"
  ++ line "Free Software Foundation, either version 2 of the License, or "
  ++ line "(at your option) any later version."
  ++ line "This program has absolutely no warranty."
  ++ line "Source code, bug reporting and documentation available at:"
  ++ line "<https://github.com/e3prom/bst>"
  ++ match program_build with
     | Some build =>
         text "Git Build " ++ build ++ [nl]
         ++ text "Compiled the " ++ program_build_time ++ [nl]
     | None => []
     end
  ++ text "For help enter " ++ [dquote] ++ program_name
  ++ text " --help" ++ [dquote; nl].

Definition set_flag (flag : flag_address) (val : bool) (v : vars) : vars :=
  match flag with
  | verbose_flag_addr =>
      mkVars val (interactive_flag v)
        (doOutputHexEscapedString v) (doOutputBadCharString v)
        (doHexDumpFile v) (doReadFromFile v) (doLimitBinaryStringWidth v)
        (fread_filename v) (output_lang v) (arg_lang v) (string_width v)
  | interactive_flag_addr =>
      mkVars (verbose_flag v) val
        (doOutputHexEscapedString v) (doOutputBadCharString v)
        (doHexDumpFile v) (doReadFromFile v) (doLimitBinaryStringWidth v)
        (fread_filename v) (output_lang v) (arg_lang v) (string_width v)
  end.

(** The [switch (opt)] of lines 424-479. *)
Definition option_switch (program_name : list ascii) (opt : Z)
  (optarg : option (list ascii)) (optopt : Z) (v : vars) : proc vars :=
  match opt with
  | 0 => ret v
  | 1 => ret v
  | 58 (* ':' *) =>
      print_err (program_name ++ text ": option `-" ++ [int_to_byte optopt]
                 ++ text "' require an argument." ++ [nl]) ;;;
      exit EXIT_FAILURE
  | 64 (* '@' *) =>
      print_err (print_version program_name) ;;;
      exit EXIT_SUCCESS
  | 118 (* 'v' *) => ret (set_flag verbose_flag_addr true v)
  | 120 (* 'x' *) =>
      ret (mkVars (verbose_flag v) (interactive_flag v)
             true (doOutputBadCharString v)
             (doHexDumpFile v) (doReadFromFile v) (doLimitBinaryStringWidth v)
             (fread_filename v) (output_lang v) (arg_lang v) (string_width v))
  | 98 (* 'b' *) =>
      ret (mkVars (verbose_flag v) (interactive_flag v)
             (doOutputHexEscapedString v) true
             (doHexDumpFile v) (doReadFromFile v) (doLimitBinaryStringWidth v)
             (fread_filename v) (output_lang v) (arg_lang v) (string_width v))
  | 68 (* 'D' *) =>
      ret (mkVars (verbose_flag v) (interactive_flag v)
             (doOutputHexEscapedString v) (doOutputBadCharString v)
             true (doReadFromFile v) (doLimitBinaryStringWidth v)
             (match optarg with
              | Some a => snprintf_s MAX_FILENAME_LENGTH a
              | None => fread_filename v
              end)
             (output_lang v) (arg_lang v) (string_width v))
  | 102 (* 'f' *) =>
      ret (mkVars (verbose_flag v) (interactive_flag v)
             (doOutputHexEscapedString v) (doOutputBadCharString v)
             (doHexDumpFile v) true (doLimitBinaryStringWidth v)
             (match optarg with
              | Some a => snprintf_s MAX_FILENAME_LENGTH a
              | None => fread_filename v
              end)
             (output_lang v) (arg_lang v) (string_width v))
  | 115 (* 's' *) =>
      let arg_lang' :=
        match optarg with
        | Some a => snprintf_s MAX_ARGUMENT_LENGTH a
        | None => arg_lang v
        end in
      let output_lang' :=
        if list_ascii_eqb arg_lang' (text "c") then 1
        else if list_ascii_eqb arg_lang' (text "python") then 2
        else output_lang v in
      ret (mkVars (verbose_flag v) (interactive_flag v)
             (doOutputHexEscapedString v) (doOutputBadCharString v)
             (doHexDumpFile v) (doReadFromFile v) (doLimitBinaryStringWidth v)
             (fread_filename v) output_lang' arg_lang' (string_width v))
  | 119 (* 'w' *) =>
      ret (mkVars (verbose_flag v) (interactive_flag v)
             (doOutputHexEscapedString v) (doOutputBadCharString v)
             (doHexDumpFile v) (doReadFromFile v) true
             (fread_filename v) (output_lang v) (arg_lang v)
             (match optarg with
              | Some a => atoi a
              | None => string_width v
              end))
  | _ (* '?', 'h', default *) =>
      print_err (print_usage program_name) ;;;
      exit EXIT_FAILURE
  end.

(** The [while] loop of lines 422-480. *)
Fixpoint option_loop (program_name : list ascii) (rs : list getopt_return)
  (v : vars) : proc vars :=
  match rs with
  | [] => ret v
  | FlagStored flag val :: rest =>
      v' <- option_switch program_name 0 None 0 (set_flag flag val v) ;;
      option_loop program_name rest v'
  | Returned opt optarg optopt :: rest =>
      v' <- option_switch program_name opt optarg optopt v ;;
      option_loop program_name rest v'
  end.

(** The call of the formatter on a block, as [main] makes it. *)
Definition call_formatter (v : vars) (ptr_char_array : option block)
  (array_size : Z) : proc unit :=
  match ptr_char_array with
  | None => fault NullDereference
  | Some p =>
      match output_hex_escaped_string (verbose_flag v) (interactive_flag v)
              (content junk p) array_size (output_lang v) (string_width v)
      with
      | Done t => print_out t
      | Undef u => fault u
      end
  end.

Definition width_notice (v : vars) : proc unit :=
  when (doLimitBinaryStringWidth v)
    (print_out (text "[+] Binary string width is limited to "
                ++ fmt_d (string_width v) ++ line " bytes.")).

(** Lines 491-524. *)
Definition hex_escape_action (v : vars) : proc Z :=
  let array_size := 1 in
  when (verbose_flag v)
    (print_out (line "[*] Convert hexadecimal input to an escaped binary string.") ;;;
     width_notice v) ;;;
  r <- (if doHexDumpFile v then
          read_from_file fs (fread_filename v) array_size 2
        else if doReadFromFile v then
          read_from_file fs (fread_filename v) array_size 1
        else
          r <- read_and_store_char_input (interactive_flag v)
                 stdin_content array_size ;;
          ret (Some (fst r), snd r)) ;;
  call_formatter v (fst r) (snd r) ;;;
  exit EXIT_SUCCESS.

(** Lines 527-532. *)
Definition dump_file_action (v : vars) : proc Z :=
  read_from_file fs (fread_filename v) 0 0 ;;;
  exit EXIT_SUCCESS.

(** Lines 535-555. *)
Definition gen_badchar_action (v : vars) : proc Z :=
  let array_size := BADCHAR_HEX_SEQLEN in
  when (verbose_flag v)
    (print_out (line "[*] Generating bad character binary string.") ;;;
     width_notice v) ;;;
  let ptr_char_array := generate_badchar_sequence in
  call_formatter v (Some ptr_char_array) array_size ;;;
  exit EXIT_SUCCESS.

(** Lines 485-557: what [main] does once the option loop is over. *)
Definition after_options (inv : invocation) (v : vars) : proc Z :=
  if (optind inv <? argc inv) || (argc inv =? 1) then
    print_out (print_usage (argv0 inv)) ;;;
    exit EXIT_SUCCESS
  else if doOutputHexEscapedString v then hex_escape_action v
  else if doHexDumpFile v then dump_file_action v
  else if doOutputBadCharString v then gen_badchar_action v
  else ret 0.

Definition main (g : indeterminate) (inv : invocation) : proc Z :=
  v <- option_loop (argv0 inv) (parsed inv) (initial_vars g) ;;
  after_options inv v.

(** How the process ends and what it has written. *)
Inductive outcome : Type :=
| Exited (status : Z) (s : streams)
| Crashed (u : undefined) (s : streams).

Definition run_main (g : indeterminate) (inv : invocation) : outcome :=
  match main g inv (mkStreams [] []) with
  | Ret status s => Exited status s
  | Exit status s => Exited status s
  | Fault u s => Crashed u s
  end.

End Program.

(* ================================================================= *)
(** ** Vocabulary of the specification and of the statements *)

Module Spec.

(** The valid hex-digit characters: 0-9, A-F, a-f. *)
Definition hex_digits : list ascii := text "0123456789ABCDEFabcdef".

Definition is_hex_digit (b : ascii) : bool :=
  existsb (Ascii.eqb b) hex_digits.

(** The characters that are skipped silently: once widened to [int],
    the EOF marker, newline (10) and null (0). *)
Definition is_skipped (b : ascii) : bool :=
  (char_to_int b =? EOF) || (char_to_int b =? 10) || (char_to_int b =? 0).

Definition is_invalid (b : ascii) : bool :=
  negb (is_hex_digit b) && negb (is_skipped b).

(** The accepted digits of an input, in order, and the number of
    invalid characters in it. *)
Definition accepted (buf : list ascii) : list ascii :=
  filter is_hex_digit buf.

Definition count_invalid (buf : list ascii) : Z :=
  len (filter is_invalid buf).

(** The wrap marker of each syntax; [first] tells that no digit has
    been accepted yet, in which case the close-quote and newline part
    is left out. *)
Definition wrap_marker (output_lang : Z) (first : bool) : list ascii :=
  match output_lang with
  | 1 => (if first then [] else [dquote; nl]) ++ [dquote]
  | 2 => (if first then [] else [dquote; nl])
         ++ text "buffer += " ++ [dquote]
  | _ => if first then [] else [nl]
  end.

Definition escape_prefix : list ascii := text "\x".

(** What is written for the accepted digits [ds], the first of which
    has index [k]; [due k] tells whether a wrap marker is due at an
    even index [k]. *)
Fixpoint literal (due : Z -> bool) (output_lang k : Z) (ds : list ascii)
  : list ascii :=
  match ds with
  | [] => []
  | d :: t =>
      (if Z.even k then
         (if due k then wrap_marker output_lang (k =? 0) else [])
         ++ escape_prefix ++ [d]
       else [d])
      ++ literal due output_lang (k + 1) t
  end.

(** The test the code makes (lines 134 and 141). *)
Definition due_in_code (string_width k : Z) : bool :=
  negb (string_width =? 0) && (Z.rem k (string_width * 2) =? 0).

(** The test of the specification for a wrap width [w > 0]:
    [ai mod 2w = 0]. *)
Definition due_every (w k : Z) : bool := k mod (2 * w) =? 0.

(** The accepted digits two by two: one group per byte, the last one
    a lone high nibble when the number of digits is odd. *)
Fixpoint byte_groups (ds : list ascii) : list (list ascii) :=
  match ds with
  | [] => []
  | [h] => [[h]]
  | h :: l :: t => [h; l] :: byte_groups t
  end.

(** The literal byte by byte: a wrap marker before every [w]-th byte,
    then the escape prefix and the digits of the byte. *)
Fixpoint wrapped_bytes (output_lang w j : Z) (groups : list (list ascii))
  : list ascii :=
  match groups with
  | [] => []
  | g :: t =>
      (if j mod w =? 0 then wrap_marker output_lang (j =? 0) else [])
      ++ escape_prefix ++ g
      ++ wrapped_bytes output_lang w (j + 1) t
  end.

Fixpoint starts_with (p s : list ascii) : bool :=
  match p, s with
  | [], _ => true
  | _ :: _, [] => false
  | a :: p', b :: s' => Ascii.eqb a b && starts_with p' s'
  end.

(** Stripping the framing: the Python preamble, the escape prefix,
    quote characters and newlines are dropped, everything else is
    kept.  [skip] characters are still to be dropped unread. *)
Fixpoint strip_from (skip : nat) (s : list ascii) : list ascii :=
  match s with
  | [] => []
  | c :: t =>
      match skip with
      | S k => strip_from k t
      | O =>
          if starts_with (text "buffer += ") s then strip_from 9 t
          else if starts_with escape_prefix s then strip_from 1 t
          else if Ascii.eqb c dquote || Ascii.eqb c nl then strip_from 0 t
          else c :: strip_from 0 t
      end
  end.

Definition strip_framing (s : list ascii) : list ascii := strip_from 0 s.

(** The two-character lowercase hexadecimal representation of [i]. *)
Definition lower_hex_digit (n : Z) : ascii :=
  nth (Z.to_nat n) (text "0123456789abcdef") "0"%char.

Definition two_hex (i : Z) : list ascii :=
  [lower_hex_digit (i / 16); lower_hex_digit (i mod 16)].

(** The value of a string of hexadecimal digits. *)
Definition digit_value (d : ascii) : Z :=
  let c := byte_value d in
  if (48 <=? c) && (c <=? 57) then c - 48
  else if (97 <=? c) && (c <=? 102) then c - 87
  else if (65 <=? c) && (c <=? 70) then c - 55
  else 0.

Definition hex_value (ds : list ascii) : Z :=
  fold_left (fun acc d => 16 * acc + digit_value d) ds 0.

(** The loop of the formatter over a list of characters, without the
    index arithmetic of [scan]. *)
Fixpoint feed (output_lang string_width : Z) (cs : list ascii) (st : state)
  : run state :=
  match cs with
  | [] => Done st
  | b :: t =>
      match loop_body output_lang string_width (char_to_int b) st with
      | Done st' => feed output_lang string_width t st'
      | Undef u => Undef u
      end
  end.

(** What precedes the literal: the newline of interactive mode. *)
Definition lead (interactive_flag : bool) : list ascii :=
  if interactive_flag then [nl] else [].

(** The next character is not the letter the Python preamble has after
    its first one. *)
Definition head_ok (s : list ascii) : Prop :=
  match s with
  | [] => True
  | c :: _ => c <> "u"%char
  end.

(** The diagnostic line of the specification for a count [n]. *)
Definition diagnostic_line (n : Z) : list ascii :=
  text "[-] Warning: " ++ fmt_d n
  ++ text " non-hexadecimal character(s) detected in input." ++ [nl].

(** The closing quote of each syntax. *)
Definition closing_quote (s : syntax) : list ascii :=
  match s with
  | Plain => []
  | CLiteral => [dquote]
  | PythonLiteral => [dquote]
  end.

(** The message for a file that cannot be opened: it holds the path
    between double quotes. *)
Definition cannot_be_read (path : list ascii) : list ascii :=
  text "Error: input filename " ++ [dquote] ++ path ++ [dquote]
  ++ text " cannot be read." ++ [nl].

(** The variables select an action that opens a file: hex-escape with
    a file to read or to dump, or dump-file alone. *)
Definition selects_file_input (v : vars) : bool :=
  if doOutputHexEscapedString v
  then doHexDumpFile v || doReadFromFile v
  else doHexDumpFile v.

(** What the hex-escape action writes before it reads its input. *)
Definition hex_escape_banner (v : vars) : list ascii :=
  if doOutputHexEscapedString v && verbose_flag v then
    line "[*] Convert hexadecimal input to an escaped binary string."
    ++ (if doLimitBinaryStringWidth v
        then text "[+] Binary string width is limited to "
             ++ fmt_d (string_width v) ++ line " bytes."
        else [])
  else [].

(** The options the specification calls modifiers: the flags stored by
    [--verbose], [--quiet] and [--interactive], and the options [f],
    [w] and [s]. *)
Definition is_modifier (r : getopt_return) : bool :=
  match r with
  | FlagStored _ _ => true
  | Returned opt _ _ => (opt =? 102) || (opt =? 119) || (opt =? 115)
  end.

(** A sample world: no input, no readable file, zeroed memory. *)
Definition empty_world_run : indeterminate -> invocation -> outcome :=
  run_main [] [] None (fun _ => 0) [] (fun _ => None) (fun _ => NUL).

Definition zeroed : indeterminate :=
  mkIndeterminate false false false false [] [].

(** The same world with something on standard input. *)
Definition empty_world_input_run (stdin_content : list ascii)
  : invocation -> outcome :=
  run_main [] [] None (fun _ => 0) stdin_content (fun _ => None)
    (fun _ => NUL) zeroed.

(** What the collector hands over: a block whose first cells hold
    [stored], followed by [extra] cells that were never written, no
    store outside the block, and a length that counts all these
    cells. *)
Definition handed_over (ptr_char_array : block) (array_size : Z)
  (stored : list ascii) (extra : nat) : Prop :=
  cells ptr_char_array = map Some stored ++ repeat None extra
  /\ overrun ptr_char_array = []
  /\ array_size = len stored + Z.of_nat extra
  /\ array_size = len (cells ptr_char_array).

(** The prompt of interactive mode. *)
Definition prompt (interactive_flag : bool) : list ascii :=
  if interactive_flag
  then line "[+] Hit CTRL-D twice to terminate input." else [].

End Spec.
Import Spec.

(* ================================================================= *)
(** ** Vocabulary of the further properties *)

Module Further.

(** The digits of a literal without any wrap marker: the escape prefix
    before each byte. *)
Definition unbroken (ds : list ascii) : list ascii :=
  flat_map (fun g => escape_prefix ++ g) (byte_groups ds).

(** The bytes of a file, each as an escape of its two lowercase
    hexadecimal digits. *)
Definition escaped_bytes (file : list ascii) : list ascii :=
  flat_map (fun b => escape_prefix ++ two_hex (byte_value b)) file.

Definition count_quotes (l : list ascii) : nat :=
  count_occ ascii_dec l dquote.

(** The results of [getopt_long] after which the option loop goes on:
    a stored flag, and the return values 0, 1, [v], [x], [b], [D], [f],
    [s] and [w]. *)
Definition continues (r : getopt_return) : bool :=
  match r with
  | FlagStored _ _ => true
  | Returned opt _ _ =>
      existsb (Z.eqb opt) [0; 1; 118; 120; 98; 68; 102; 115; 119]
  end.

(** The diagnostic for an option whose argument is missing. *)
Definition missing_argument (program_name : list ascii) (optopt : Z)
  : list ascii :=
  program_name ++ text ": option `-" ++ [int_to_byte optopt]
  ++ text "' require an argument." ++ [nl].

(** A process step ends, if it ends the process, with one of the two
    statuses of [stdlib.h]; [main] returns 0. *)
Definition status_ok {A : Type} (final : A -> Prop) (r : result A) : Prop :=
  match r with
  | Ret a _ => final a
  | Exit n _ => n = EXIT_SUCCESS \/ n = EXIT_FAILURE
  | Fault _ _ => True
  end.

(** A step that leaves standard output as it found it. *)
Definition stdout_of {A : Type} (r : result A) : list ascii :=
  match r with
  | Ret _ s => stdout s
  | Exit _ s => stdout s
  | Fault _ s => stdout s
  end.

(** The bad-character sequence: the two lowercase hexadecimal digits
    of 1, 2, ..., 255. *)
Definition badchars : list ascii := flat_map two_hex (for_range 1 256).

(** What the gen-badchar action writes before the literal. *)
Definition badchar_banner (v : vars) : list ascii :=
  if verbose_flag v then
    line "[*] Generating bad character binary string."
    ++ (if doLimitBinaryStringWidth v
        then text "[+] Binary string width is limited to "
             ++ fmt_d (string_width v) ++ line " bytes."
        else [])
  else [].

(** How a call of the formatter by [main] ends, after [before] has been
    written to standard output. *)
Definition formatted (before : list ascii) (r : run (list ascii))
  : result Z :=
  match r with
  | Done t => Exit EXIT_SUCCESS (mkStreams (before ++ t) [])
  | Undef u => Fault u (mkStreams before [])
  end.

End Further.
Import Further.

(* ================================================================= *)
(** * Properties *)

(** ** Bytes *)

Ltac each_byte b :=
  destruct b as [[|] [|] [|] [|] [|] [|] [|] [|]]; vm_compute; try reflexivity.

Lemma int_to_byte_char_to_int (b : ascii) : int_to_byte (char_to_int b) = b.
Proof. each_byte b. Qed.

Lemma int_to_byte_byte_value (b : ascii) : int_to_byte (byte_value b) = b.
Proof. each_byte b. Qed.

Lemma is_hex_case_byte (b : ascii) :
  is_hex_case (char_to_int b) = is_hex_digit b.
Proof. each_byte b. Qed.

Lemma hex_digit_not_skipped (b : ascii) :
  is_hex_digit b = true -> is_skipped b = false.
Proof. each_byte b; intros H; discriminate H. Qed.

Lemma fmt_02x_byte (b : ascii) : fmt_02x (byte_value b) = two_hex (byte_value b).
Proof. each_byte b. Qed.

Lemma len_app {A : Type} (l1 l2 : list A) : len (l1 ++ l2) = len l1 + len l2.
Proof. unfold len. rewrite length_app. lia. Qed.

Lemma len_cons {A : Type} (a : A) (l : list A) : len (a :: l) = 1 + len l.
Proof. unfold len. simpl List.length. lia. Qed.

Lemma len_nonneg {A : Type} (l : list A) : 0 <= len l.
Proof. unfold len. lia. Qed.

(** ** The loop of the formatter *)

Lemma scan_feed (pre cs : list ascii) (output_lang string_width : Z)
  (st : state) :
  scan (pre ++ cs) output_lang string_width (List.length cs) (len pre) st
  = feed output_lang string_width cs st.
Proof.
  revert pre st. induction cs as [|b t IH]; intros pre st; simpl.
  - reflexivity.
  - assert (Hlt : (len pre <? 0) = false) by (apply Z.ltb_ge, len_nonneg).
    rewrite Hlt. unfold len at 1. rewrite Nat2Z.id.
    rewrite nth_error_app2 by lia. rewrite Nat.sub_diag. simpl.
    destruct (loop_body output_lang string_width (char_to_int b) st)
      as [st'|u]; [|reflexivity].
    specialize (IH (pre ++ [b]) st').
    rewrite <- app_assoc in IH. simpl in IH.
    rewrite len_app in IH. change (len [b]) with 1 in IH. exact IH.
Qed.

Lemma scan_whole (buf : list ascii) (output_lang string_width : Z)
  (st : state) :
  scan buf output_lang string_width (Z.to_nat (len buf)) 0 st
  = feed output_lang string_width buf st.
Proof.
  unfold len. rewrite Nat2Z.id. exact (scan_feed [] buf _ _ st).
Qed.

Lemma wrap_switch_spec (output_lang : Z) (st : state) :
  wrap_switch output_lang st
  = mkState (ai st) (invalidhexchar st)
            (out st ++ wrap_marker output_lang (ai st =? 0)).
Proof.
  unfold wrap_switch, wrap_marker, putchar, printf.
  destruct st as [a n o]; simpl.
  destruct (a =? 0) eqn:E;
    destruct output_lang as [|[p|p|]|]; try destruct p; simpl;
    rewrite ?E; simpl; rewrite ?E; simpl;
    rewrite <- ?app_assoc, ?app_nil_r; reflexivity.
Qed.

Lemma rem_2_even (k : Z) : (Z.rem k 2 =? 0) = Z.even k.
Proof.
  rewrite Zeven_mod. 
  destruct (Z.eqb_spec (Z.rem k 2) 0) as [H|H];
    destruct (Z.eqb_spec (k mod 2) 0) as [H'|H']; try reflexivity; exfalso.
  - apply H'. apply Z.mod_divide; [lia|]. apply Z.rem_divide in H; [exact H|lia].
  - apply H. apply Z.rem_divide; [lia|]. apply Z.mod_divide in H'; [exact H'|lia].
Qed.

(** One accepted digit, for a width within the range where the product
    [string_width*2] is an [int]. *)
Lemma hex_case_spec (output_lang string_width : Z) (d : ascii) (st : state) :
  in_int (string_width * 2) = true ->
  hex_case output_lang string_width (char_to_int d) st
  = Done (mkState (ai st + 1) (invalidhexchar st)
            (out st ++ literal (due_in_code string_width) output_lang
                               (ai st) [d])).
Proof.
  intros Hw. unfold hex_case. rewrite rem_2_even. simpl literal.
  rewrite app_nil_r. unfold due_in_code.
  destruct (Z.even (ai st)).
  - destruct (Z.eqb_spec string_width 0) as [H0|H0]; simpl negb; cbv iota.
    + unfold putchar; simpl. rewrite int_to_byte_char_to_int.
      rewrite <- !app_assoc. reflexivity.
    + rewrite Hw. simpl negb. cbv iota.
      destruct (Z.eqb_spec (string_width * 2) 0) as [Hm|Hm]; [lia|].
      simpl andb.
      destruct (Z.rem (ai st) (string_width * 2) =? 0).
      * rewrite wrap_switch_spec. unfold putchar; simpl.
        rewrite int_to_byte_char_to_int. rewrite <- !app_assoc. reflexivity.
      * unfold putchar; simpl. rewrite int_to_byte_char_to_int.
        rewrite <- !app_assoc. reflexivity.
  - unfold putchar; simpl. rewrite int_to_byte_char_to_int. reflexivity.
Qed.

Lemma literal_app (due : Z -> bool) (output_lang k : Z) (l1 l2 : list ascii) :
  literal due output_lang k (l1 ++ l2)
  = literal due output_lang k l1
    ++ literal due output_lang (k + len l1) l2.
Proof.
  revert k. induction l1 as [|d t IH]; intros k; simpl.
  - change (len []) with 0. rewrite Z.add_0_r. reflexivity.
  - rewrite IH, len_cons. rewrite <- !app_assoc.
    replace (k + 1 + len t) with (k + (1 + len t)) by lia. reflexivity.
Qed.

Lemma count_invalid_cons (b : ascii) (t : list ascii) :
  count_invalid (b :: t)
  = (if is_invalid b then 1 else 0) + count_invalid t.
Proof.
  unfold count_invalid. simpl filter.
  destruct (is_invalid b); [rewrite len_cons|]; lia.
Qed.

Lemma default_case_spec (b : ascii) (st : state) :
  default_case (char_to_int b) st
  = if is_skipped b then st
    else mkState (ai st) (invalidhexchar st + 1) (out st).
Proof.
  unfold default_case, is_skipped.
  destruct (char_to_int b =? EOF); [reflexivity|].
  destruct (char_to_int b =? 10); [reflexivity|].
  destruct (char_to_int b =? 0); reflexivity.
Qed.

(** The state after the loop has run over [cs]. *)
Lemma feed_spec (output_lang string_width : Z) (cs : list ascii) (st : state) :
  in_int (string_width * 2) = true ->
  feed output_lang string_width cs st
  = Done (mkState (ai st + len (accepted cs))
                  (invalidhexchar st + count_invalid cs)
                  (out st ++ literal (due_in_code string_width) output_lang
                                     (ai st) (accepted cs))).
Proof.
  intros Hw. revert st. induction cs as [|b t IH]; intros st.
  - simpl. change (count_invalid []) with 0. change (len []) with 0.
    rewrite !Z.add_0_r, app_nil_r. destruct st; reflexivity.
  - simpl feed. unfold loop_body. rewrite is_hex_case_byte.
    rewrite count_invalid_cons. unfold is_invalid, accepted. simpl filter.
    fold (accepted t).
    destruct (is_hex_digit b) eqn:Hb; simpl negb; simpl andb; cbv iota.
    + rewrite hex_case_spec by exact Hw. rewrite IH.
      simpl ai. simpl invalidhexchar. simpl out.
      f_equal. f_equal.
      * rewrite len_cons. lia.
      * simpl literal. rewrite app_nil_r.
        rewrite <- !app_assoc. reflexivity.
    + rewrite default_case_spec.
      destruct (is_skipped b); simpl negb; cbv iota; rewrite IH.
      * reflexivity.
      * simpl ai. simpl invalidhexchar. simpl out.
        f_equal. f_equal. lia.
Qed.

(** The digit index and the counter never exceed the number of bytes
    scanned, which is at most [*array_size]: the increments of [ai],
    [invalidhexchar] and [i] stay within [int]. *)
Lemma counters_bounded (buf : list ascii) :
  0 <= len (accepted buf) /\ 0 <= count_invalid buf
  /\ len (accepted buf) + count_invalid buf <= len buf.
Proof.
  split; [apply len_nonneg|]. split; [apply len_nonneg|].
  induction buf as [|b t IH]; [vm_compute; discriminate|].
  rewrite count_invalid_cons, len_cons. unfold accepted, is_invalid.
  simpl filter. fold (accepted t).
  destruct (is_hex_digit b); simpl negb; simpl andb; cbv iota.
  - rewrite len_cons. lia.
  - destruct (negb (is_skipped b)); lia.
Qed.

(** The whole output of the formatter called on a buffer with its
    length. *)
Lemma formatter_spec (verbose_flag interactive_flag : bool)
  (buf : list ascii) (output_lang string_width : Z) :
  in_int (string_width * 2) = true ->
  output_hex_escaped_string verbose_flag interactive_flag buf (len buf)
    output_lang string_width
  = Done (lead interactive_flag ++ declaration verbose_flag output_lang
          ++ literal (due_in_code string_width) output_lang 0 (accepted buf)
          ++ closing output_lang
          ++ warning verbose_flag (count_invalid buf)).
Proof.
  intros Hw. unfold output_hex_escaped_string.
  rewrite scan_whole, feed_spec by exact Hw.
  unfold lead. destruct interactive_flag; simpl; rewrite <- ?app_assoc;
    reflexivity.
Qed.

(** ** Stripping the framing *)

Lemma hex_digit_plain (d : ascii) :
  is_hex_digit d = true ->
  Ascii.eqb "\" d = false /\ Ascii.eqb d dquote = false
  /\ Ascii.eqb d nl = false /\ d <> "u"%char.
Proof.
  destruct d as [[|] [|] [|] [|] [|] [|] [|] [|]]; vm_compute; intros H;
    try discriminate H; repeat split; discriminate.
Qed.

Lemma starts_with_cons (a b : ascii) (p s : list ascii) :
  starts_with (a :: p) (b :: s) = Ascii.eqb a b && starts_with p s.
Proof. reflexivity. Qed.

Lemma strip_from_0_cons (c : ascii) (t : list ascii) :
  strip_from 0 (c :: t)
  = if starts_with (text "buffer += ") (c :: t) then strip_from 9 t
    else if starts_with escape_prefix (c :: t) then strip_from 1 t
    else if Ascii.eqb c dquote || Ascii.eqb c nl then strip_from 0 t
    else c :: strip_from 0 t.
Proof. reflexivity. Qed.

Lemma strip_digit (d : ascii) (rest : list ascii) :
  is_hex_digit d = true -> head_ok rest ->
  strip_from 0 (d :: rest) = d :: strip_from 0 rest.
Proof.
  intros Hd Hrest. destruct (hex_digit_plain d Hd) as (H1 & H2 & H3 & _).
  assert (Hb : starts_with (text "buffer += ") (d :: rest) = false).
  { change (text "buffer += ")
      with ("b"%char :: "u"%char :: text "ffer += ").
    rewrite starts_with_cons.
    destruct (Ascii.eqb "b" d); [|reflexivity].
    destruct rest as [|c r]; [reflexivity|]. rewrite starts_with_cons.
    destruct (Ascii.eqb_spec "u" c) as [E|E]; [|reflexivity].
    exfalso. apply Hrest. symmetry. exact E. }
  rewrite strip_from_0_cons, Hb.
  change escape_prefix with ["\"%char; "x"%char].
  rewrite starts_with_cons, H1, H2, H3. reflexivity.
Qed.

Lemma strip_escape (rest : list ascii) :
  strip_from 0 (escape_prefix ++ rest) = strip_from 0 rest.
Proof. reflexivity. Qed.

Lemma strip_marker (output_lang : Z) (first : bool) (rest : list ascii) :
  strip_from 0 (wrap_marker output_lang first ++ rest) = strip_from 0 rest.
Proof.
  unfold wrap_marker.
  destruct output_lang as [|[p|p|]|]; try destruct p; destruct first;
    reflexivity.
Qed.

Lemma head_ok_marker (output_lang : Z) (first : bool) (rest : list ascii) :
  head_ok rest -> head_ok (wrap_marker output_lang first ++ rest).
Proof.
  intros H. unfold wrap_marker.
  destruct output_lang as [|[p|p|]|]; try destruct p; destruct first;
    simpl; try exact H; discriminate.
Qed.

Lemma head_ok_literal (due : Z -> bool) (output_lang k : Z)
  (ds tail : list ascii) :
  forallb is_hex_digit ds = true -> head_ok tail ->
  head_ok (literal due output_lang k ds ++ tail).
Proof.
  intros Hds Htail. destruct ds as [|d t]; [exact Htail|].
  simpl in Hds. apply andb_prop in Hds. destruct Hds as [Hd _].
  simpl literal. destruct (Z.even k).
  - rewrite <- !app_assoc. destruct (due k).
    + apply head_ok_marker. simpl. discriminate.
    + simpl. discriminate.
  - simpl. apply (hex_digit_plain d Hd).
Qed.

Lemma strip_literal (due : Z -> bool) (output_lang k : Z)
  (ds tail : list ascii) :
  forallb is_hex_digit ds = true -> head_ok tail ->
  strip_from 0 (literal due output_lang k ds ++ tail)
  = ds ++ strip_from 0 tail.
Proof.
  intros Hds Htail. revert k. induction ds as [|d t IH]; intros k.
  - reflexivity.
  - simpl in Hds. apply andb_prop in Hds. destruct Hds as [Hd Ht].
    specialize (IH Ht).
    assert (Hnext : head_ok (literal due output_lang (k + 1) t ++ tail))
      by (apply head_ok_literal; assumption).
    simpl literal. destruct (Z.even k).
    + rewrite <- !app_assoc.
      assert (Hesc : strip_from 0
                (escape_prefix ++ [d] ++ literal due output_lang (k + 1) t
                 ++ tail) = d :: t ++ strip_from 0 tail).
      { rewrite strip_escape. simpl app.
        rewrite strip_digit by assumption. rewrite IH. reflexivity. }
      destruct (due k); [rewrite strip_marker|]; exact Hesc.
    + simpl app. rewrite strip_digit by assumption. rewrite IH. reflexivity.
Qed.

Lemma accepted_all (buf : list ascii) :
  forallb is_hex_digit buf = true -> accepted buf = buf.
Proof.
  induction buf as [|b t IH]; intros H; [reflexivity|].
  simpl in H. apply andb_prop in H. destruct H as [Hb Ht].
  unfold accepted. simpl. rewrite Hb. f_equal. apply IH, Ht.
Qed.

Lemma count_invalid_all (buf : list ascii) :
  forallb is_hex_digit buf = true -> count_invalid buf = 0.
Proof.
  induction buf as [|b t IH]; intros H; [reflexivity|].
  simpl in H. apply andb_prop in H. destruct H as [Hb Ht].
  rewrite count_invalid_cons, IH by exact Ht.
  unfold is_invalid. rewrite Hb. reflexivity.
Qed.

Lemma strip_closing (output_lang : Z) :
  strip_from 0 (closing output_lang) = [] /\ head_ok (closing output_lang).
Proof.
  unfold closing.
  destruct output_lang as [|[p|p|]|]; try destruct p; split;
    try reflexivity; simpl; discriminate.
Qed.

(** ** Scenario of C1 *)

(** C1, evaluated on the code: called on the six characters 414243,
    the formatter writes the escaped bytes and a newline in plain
    syntax with width 0, and one quoted segment per line in C syntax
    with width 1; in C syntax with width 0 it writes the escaped bytes,
    a closing quote and a newline, but no opening quote, so the output
    is not the quoted literal of the scenario. *)
Theorem C1_scenarios_on_414243 :
  output_hex_escaped_string false false (text "414243") 6 (lang_code Plain) 0
  = Done (text "\x41\x42\x43" ++ [nl])
  /\ output_hex_escaped_string false false (text "414243") 6
       (lang_code CLiteral) 1
     = Done ([dquote] ++ text "\x41" ++ [dquote; nl]
             ++ [dquote] ++ text "\x42" ++ [dquote; nl]
             ++ [dquote] ++ text "\x43" ++ [dquote; nl])
  /\ output_hex_escaped_string false false (text "414243") 6
       (lang_code CLiteral) 0
     = Done (text "\x41\x42\x43" ++ [dquote; nl])
  /\ output_hex_escaped_string false false (text "414243") 6
       (lang_code CLiteral) 0
     <> Done ([dquote] ++ text "\x41\x42\x43" ++ [dquote; nl]).
Proof.
  repeat split; try reflexivity. vm_compute. discriminate.
Qed.

(** ** Round trip (C2) *)

(** C2, as the code has it: for a buffer made only of valid hex-digit
    characters and of even length, for every syntax, every wrap width
    whose double is an [int] (from -2^30 up to 2^30 - 1) and both
    settings of each flag, the output is the
    interactive newline, the verbose declaration line and a literal
    text; stripping the framing (escape prefixes, quotes, newlines,
    Python preambles) from the literal text gives back the digits of the
    buffer in order, and so does stripping the whole output when the
    verbose flag is off.  (The proof does not use the parity of the
    length.) *)
Theorem C2_framing_round_trip (verbose_flag interactive_flag : bool)
  (buf : list ascii) (output_lang string_width : Z) :
  forallb is_hex_digit buf = true ->
  Nat.even (List.length buf) = true ->
  in_int (string_width * 2) = true ->
  exists literal_text : list ascii,
    output_hex_escaped_string verbose_flag interactive_flag buf (len buf)
      output_lang string_width
    = Done (lead interactive_flag ++ declaration verbose_flag output_lang
            ++ literal_text)
    /\ output_hex_escaped_string false interactive_flag buf (len buf)
         output_lang string_width
       = Done (lead interactive_flag ++ literal_text)
    /\ strip_framing literal_text = buf
    /\ strip_framing (lead interactive_flag ++ literal_text) = buf.
Proof.
  intros Hhex _ Hw.
  exists (literal (due_in_code string_width) output_lang 0 buf
          ++ closing output_lang).
  rewrite !formatter_spec by exact Hw.
  rewrite (accepted_all buf Hhex), (count_invalid_all buf Hhex).
  assert (Hwarn : forall v, warning v 0 = [])
    by (intros v; unfold warning; rewrite andb_false_r; reflexivity).
  rewrite !Hwarn, !app_nil_r.
  destruct (strip_closing output_lang) as [Hc Hh].
  assert (Hstrip : strip_framing
            (literal (due_in_code string_width) output_lang 0 buf
             ++ closing output_lang) = buf).
  { unfold strip_framing. rewrite strip_literal by assumption.
    rewrite Hc. apply app_nil_r. }
  repeat split.
  - exact Hstrip.
  - destruct interactive_flag; exact Hstrip.
Qed.

Lemma C2_framing_round_trip_witness :
  forallb is_hex_digit (text "41c3Bf") = true
  /\ Nat.even (List.length (text "41c3Bf")) = true
  /\ in_int (2 * 2) = true
  /\ exists literal_text : list ascii,
       output_hex_escaped_string true true (text "41c3Bf")
         (len (text "41c3Bf")) 2 2
       = Done (lead true ++ declaration true 2 ++ literal_text)
       /\ output_hex_escaped_string false true (text "41c3Bf")
            (len (text "41c3Bf")) 2 2
          = Done (lead true ++ literal_text)
       /\ strip_framing literal_text = text "41c3Bf"
       /\ strip_framing (lead true ++ literal_text) = text "41c3Bf".
Proof.
  split; [reflexivity|]. split; [reflexivity|]. split; [reflexivity|].
  apply (C2_framing_round_trip true true (text "41c3Bf") 2 2); reflexivity.
Defined.

(** Outside that range the product [string_width*2] is not an [int]:
    the run is undefined at the first valid hex digit, whatever comes
    before it. *)
Lemma feed_width_overflow (output_lang string_width : Z) (cs : list ascii)
  (st : state) :
  in_int (string_width * 2) = false ->
  Z.even (ai st) = true -> accepted cs <> [] ->
  feed output_lang string_width cs st = Undef SignedOverflow.
Proof.
  intros Hw. revert st. induction cs as [|b t IH]; intros st Hev Hacc.
  - contradiction Hacc. reflexivity.
  - simpl feed. unfold loop_body. rewrite is_hex_case_byte.
    destruct (is_hex_digit b) eqn:Hb.
    + unfold hex_case. rewrite rem_2_even, Hev.
      destruct (Z.eqb_spec string_width 0) as [E|_].
      * rewrite E in Hw. discriminate Hw.
      * simpl negb. cbv iota. rewrite Hw. reflexivity.
    + rewrite default_case_spec.
      assert (Ht : accepted t <> []).
      { intros E. apply Hacc. unfold accepted. simpl. rewrite Hb. exact E. }
      destruct (is_skipped b); apply IH; assumption.
Qed.

Lemma formatter_width_overflow (verbose_flag interactive_flag : bool)
  (buf : list ascii) (output_lang string_width : Z) :
  in_int (string_width * 2) = false -> accepted buf <> [] ->
  output_hex_escaped_string verbose_flag interactive_flag buf (len buf)
    output_lang string_width
  = Undef SignedOverflow.
Proof.
  intros Hw Hacc. unfold output_hex_escaped_string.
  rewrite scan_whole, feed_width_overflow; try assumption; try reflexivity.
  destruct interactive_flag; reflexivity.
Qed.

(** C2 as stated fails: with the wrap width -2147483648, which [atoi]
    can deliver, the product [string_width*2] is not an [int] (on a
    machine that wraps it is 0, and the remainder by it a division by
    zero), so on the two valid digits 41 the run has no output that
    could be stripped back to them. *)
Lemma C2_width_int_min_no_output :
  forallb is_hex_digit (text "41") = true
  /\ Nat.even (List.length (text "41")) = true
  /\ output_hex_escaped_string false false (text "41") 2 (lang_code Plain)
       (-2147483648)
     = Undef SignedOverflow
  /\ ~ (exists o : list ascii,
          output_hex_escaped_string false false (text "41") 2
            (lang_code Plain) (-2147483648) = Done o
          /\ strip_framing o = text "41").
Proof.
  split; [reflexivity|]. split; [reflexivity|]. split; [reflexivity|].
  intros (o & Ho & _). vm_compute in Ho. discriminate Ho.
Qed.

(** ** Wrap markers (C3) *)

Lemma literal_ext (due1 due2 : Z -> bool) (output_lang k : Z)
  (ds : list ascii) :
  (forall k', k <= k' -> due1 k' = due2 k') ->
  literal due1 output_lang k ds = literal due2 output_lang k ds.
Proof.
  revert k. induction ds as [|d t IH]; intros k H; [reflexivity|].
  simpl. rewrite (H k) by lia. rewrite (IH (k + 1)); [reflexivity|].
  intros k' Hk'. apply H. lia.
Qed.

Lemma due_in_code_every (w k : Z) :
  0 < w -> 0 <= k -> due_in_code w k = due_every w k.
Proof.
  intros Hw Hk. unfold due_in_code, due_every.
  destruct (Z.eqb_spec w 0) as [E|_]; [lia|]. simpl.
  rewrite Z.rem_mod_nonneg by lia. rewrite (Z.mul_comm w 2). reflexivity.
Qed.

Lemma pair_induction (P : list ascii -> Prop) :
  P [] -> (forall h, P [h]) -> (forall h l t, P t -> P (h :: l :: t)) ->
  forall ds, P ds.
Proof.
  intros H0 H1 H2 ds.
  assert (H : P ds /\ forall a, P (a :: ds)).
  { induction ds as [|b t [IHt IHc]]; split; auto. }
  exact (proj1 H).
Qed.

Lemma double_eqb_0 (j : Z) : (2 * j =? 0) = (j =? 0).
Proof.
  destruct (Z.eqb_spec j 0), (Z.eqb_spec (2 * j) 0); try reflexivity; lia.
Qed.

Lemma due_every_double (w j : Z) :
  0 < w -> due_every w (2 * j) = (j mod w =? 0).
Proof.
  intros Hw. unfold due_every. rewrite Z.mul_mod_distr_l by lia.
  apply double_eqb_0.
Qed.

Lemma literal_bytes (output_lang w : Z) (ds : list ascii) :
  0 < w ->
  forall j, 0 <= j ->
  literal (due_every w) output_lang (2 * j) ds
  = wrapped_bytes output_lang w j (byte_groups ds).
Proof.
  intros Hw. induction ds as [| h | h l t IH] using pair_induction;
    intros j Hj.
  - reflexivity.
  - cbn [literal byte_groups wrapped_bytes].
    rewrite Z.even_mul. cbn [Z.even orb].
    rewrite due_every_double, double_eqb_0 by exact Hw.
    rewrite !app_nil_r. reflexivity.
  - cbn [literal byte_groups wrapped_bytes].
    rewrite <- (IH (j + 1)) by lia.
    rewrite Z.even_mul. cbn [Z.even orb].
    replace (Z.even (2 * j + 1)) with false
      by (symmetry; rewrite Z.even_add, Z.even_mul; reflexivity).
    rewrite due_every_double, double_eqb_0 by exact Hw.
    replace (2 * j + 1 + 1) with (2 * (j + 1)) by lia.
    rewrite <- !app_assoc. reflexivity.
Qed.

(** C3, as the code has it: for every input and every wrap width [w]
    with [0 < w] whose double is an [int] (that is [w < 2^30]), the
    literal part of the output is, digit by digit over
    the accepted digits with their index [ai] counted from 0 over the
    whole input: at an even [ai] the wrap marker of the syntax exactly
    when [ai mod 2w = 0] (without its close-quote and newline part at
    [ai = 0]), then the escape prefix and the digit; at an odd [ai] the
    digit alone.  Byte by byte this is a marker before every [w]-th
    byte and, for each byte, the escape prefix directly followed by its
    digits, so no marker stands between the two digits of a pair. *)
Theorem C3_wrap_marker_placement (verbose_flag interactive_flag : bool)
  (buf : list ascii) (output_lang w : Z) :
  0 < w -> in_int (w * 2) = true ->
  output_hex_escaped_string verbose_flag interactive_flag buf (len buf)
    output_lang w
  = Done (lead interactive_flag ++ declaration verbose_flag output_lang
          ++ literal (due_every w) output_lang 0 (accepted buf)
          ++ closing output_lang
          ++ warning verbose_flag (count_invalid buf))
  /\ literal (due_every w) output_lang 0 (accepted buf)
     = wrapped_bytes output_lang w 0 (byte_groups (accepted buf)).
Proof.
  intros Hw Hint. split.
  - rewrite formatter_spec by exact Hint.
    rewrite (literal_ext (due_in_code w) (due_every w)); [reflexivity|].
    intros k Hk. apply due_in_code_every; lia.
  - exact (literal_bytes output_lang w (accepted buf) Hw 0 (Z.le_refl 0)).
Qed.

Lemma C3_wrap_marker_placement_witness :
  0 < 2 /\ in_int (2 * 2) = true
  /\ output_hex_escaped_string false false (text "41 4243z4") (len (text "41 4243z4"))
       2 2
     = Done (lead false ++ declaration false 2
             ++ literal (due_every 2) 2 0 (accepted (text "41 4243z4"))
             ++ closing 2
             ++ warning false (count_invalid (text "41 4243z4")))
  /\ literal (due_every 2) 2 0 (accepted (text "41 4243z4"))
     = wrapped_bytes 2 2 0 (byte_groups (accepted (text "41 4243z4"))).
Proof.
  split; [lia|]. split; [reflexivity|].
  apply (C3_wrap_marker_placement false false (text "41 4243z4") 2 2);
    [lia|reflexivity].
Defined.

(** C3 as stated fails: with the wrap width 2147483647 the product
    [string_width*2] is not an [int] (on a machine that wraps it is
    -2, which divides every even index, so a newline is written before
    every byte), and on the digits 4142 in plain syntax the run does
    not give the output the claim describes, in which no marker stands
    before the second byte. *)
Lemma C3_width_int_max_misplaced :
  0 < 2147483647
  /\ output_hex_escaped_string false false (text "4142") 4 (lang_code Plain)
       2147483647
     = Undef SignedOverflow
  /\ literal (due_every 2147483647) (lang_code Plain) 0
       (accepted (text "4142"))
     = text "\x41\x42"
  /\ output_hex_escaped_string false false (text "4142") 4 (lang_code Plain)
       2147483647
     <> Done (lead false ++ declaration false (lang_code Plain)
              ++ literal (due_every 2147483647) (lang_code Plain) 0
                   (accepted (text "4142"))
              ++ closing (lang_code Plain)
              ++ warning false (count_invalid (text "4142"))).
Proof.
  split; [reflexivity|]. split; [reflexivity|]. split; [reflexivity|].
  vm_compute. discriminate.
Qed.

Example wrapped_bytes_example :
  wrapped_bytes 1 2 0 (byte_groups (text "4142434"))
  = [dquote] ++ text "\x41\x42" ++ [dquote; nl; dquote] ++ text "\x43\x4".
Proof. reflexivity. Qed.

(** ** Invalid characters (C4) *)

Lemma accepted_idem (buf : list ascii) : accepted (accepted buf) = accepted buf.
Proof.
  apply accepted_all. apply forallb_forall. intros b Hb.
  apply filter_In in Hb. apply Hb.
Qed.

Lemma count_invalid_accepted (buf : list ascii) :
  count_invalid (accepted buf) = 0.
Proof.
  apply count_invalid_all. apply forallb_forall. intros b Hb.
  apply filter_In in Hb. apply Hb.
Qed.

Lemma loop_body_invalid (output_lang string_width : Z) (b : ascii)
  (st : state) :
  is_hex_digit b = false -> is_skipped b = false ->
  loop_body output_lang string_width (char_to_int b) st
  = Done (mkState (ai st) (invalidhexchar st + 1) (out st)).
Proof.
  intros Hh Hs. unfold loop_body.
  rewrite is_hex_case_byte, Hh, default_case_spec, Hs. reflexivity.
Qed.

Lemma loop_body_skipped (output_lang string_width : Z) (b : ascii)
  (st : state) :
  is_skipped b = true ->
  loop_body output_lang string_width (char_to_int b) st = Done st.
Proof.
  intros Hs. unfold loop_body. rewrite is_hex_case_byte.
  destruct (is_hex_digit b) eqn:Hh.
  - rewrite (hex_digit_not_skipped b Hh) in Hs. discriminate Hs.
  - rewrite default_case_spec, Hs. reflexivity.
Qed.

(** C4: in the loop, a byte that is neither a valid hex digit nor (once
    widened) EOF, newline or null adds one to the counter and leaves
    the digit index and the output as they are; a byte that is EOF,
    newline or null leaves the whole state as it is.  Over a whole run
    (with a wrap width whose double is an [int]) the loop ends with the
    digit index at the number of accepted digits and the counter at the
    number of invalid bytes; the run yields the complete output that
    the accepted digits alone would give, followed by the diagnostic
    line, once, exactly when the verbose flag is set and the counter is
    greater than zero. *)
Theorem C4_invalid_characters (verbose_flag interactive_flag : bool)
  (buf : list ascii) (output_lang string_width : Z) :
  in_int (string_width * 2) = true ->
  (forall (b : ascii) (st : state),
      is_hex_digit b = false -> is_skipped b = false ->
      loop_body output_lang string_width (char_to_int b) st
      = Done (mkState (ai st) (invalidhexchar st + 1) (out st)))
  /\ (forall (b : ascii) (st : state),
         is_skipped b = true ->
         loop_body output_lang string_width (char_to_int b) st = Done st)
  /\ (exists final_out : list ascii,
         scan buf output_lang string_width (Z.to_nat (len buf)) 0
           (mkState 0 0 [])
         = Done (mkState (len (accepted buf)) (count_invalid buf) final_out))
  /\ exists full : list ascii,
       output_hex_escaped_string verbose_flag interactive_flag
         (accepted buf) (len (accepted buf)) output_lang string_width
       = Done full
       /\ output_hex_escaped_string verbose_flag interactive_flag
            buf (len buf) output_lang string_width
          = Done (full ++
                  if verbose_flag && (0 <? count_invalid buf)
                  then diagnostic_line (count_invalid buf) else []).
Proof.
  intros Hw. split; [|split; [|split]].
  - intros b st. apply loop_body_invalid.
  - intros b st. apply loop_body_skipped.
  - rewrite scan_whole, feed_spec by exact Hw. simpl. eexists. reflexivity.
  - rewrite !formatter_spec by exact Hw.
    rewrite accepted_idem, count_invalid_accepted.
    eexists. split.
    + reflexivity.
    + replace (warning verbose_flag 0) with (@nil ascii)
        by (unfold warning; rewrite andb_false_r; reflexivity).
      rewrite app_nil_r. rewrite <- !app_assoc. reflexivity.
Qed.

(** The process of a verbose hex-escape run over an input with an
    invalid character ends with the success status. *)
Example invalid_characters_exit_status :
  empty_world_input_run (text "4g1")
    (mkInvocation 3 (text "bstrings")
       [FlagStored verbose_flag_addr true; Returned 120 None 0] 3)
  = Exited EXIT_SUCCESS
      (mkStreams
         (line "[*] Convert hexadecimal input to an escaped binary string."
          ++ text "\x41" ++ [nl] ++ diagnostic_line 1) []).
Proof. reflexivity. Qed.

(** Outside the range of the hypothesis on the width the product
    [string_width*2] is not an [int]. *)
Example width_out_of_range :
  output_hex_escaped_string false false (text "41") 2 0 1073741824
  = Undef SignedOverflow
  /\ output_hex_escaped_string false false (text "41") 2 0 1073741823
     = Done (text "\x41" ++ [nl]).
Proof. split; reflexivity. Qed.

Lemma C4_invalid_characters_witness :
  in_int (1 * 2) = true
  /\ (forall (b : ascii) (st : state),
         is_hex_digit b = false -> is_skipped b = false ->
         loop_body 1 1 (char_to_int b) st
         = Done (mkState (ai st) (invalidhexchar st + 1) (out st)))
  /\ (forall (b : ascii) (st : state),
         is_skipped b = true ->
         loop_body 1 1 (char_to_int b) st = Done st)
  /\ (exists final_out : list ascii,
         scan (text "4g1 42") 1 1 (Z.to_nat (len (text "4g1 42"))) 0
           (mkState 0 0 [])
         = Done (mkState (len (accepted (text "4g1 42")))
                         (count_invalid (text "4g1 42")) final_out))
  /\ exists full : list ascii,
       output_hex_escaped_string true false
         (accepted (text "4g1 42")) (len (accepted (text "4g1 42"))) 1 1
       = Done full
       /\ output_hex_escaped_string true false
            (text "4g1 42") (len (text "4g1 42")) 1 1
          = Done (full ++
                  if true && (0 <? count_invalid (text "4g1 42"))
                  then diagnostic_line (count_invalid (text "4g1 42"))
                  else []).
Proof.
  split; [reflexivity|].
  apply (C4_invalid_characters true false (text "4g1 42") 1 1). reflexivity.
Defined.

Example invalid_characters_example :
  output_hex_escaped_string true false (text "4g1 42") 6 1 1
  = Done (text "unsigned char buffer[] =" ++ [nl]
          ++ [dquote] ++ text "\x41" ++ [dquote; nl]
          ++ [dquote] ++ text "\x42" ++ [dquote; nl]
          ++ text "[-] Warning: 2 non-hexadecimal character(s) detected in input."
          ++ [nl])
  /\ output_hex_escaped_string false false (text "4g1 42") 6 1 1
     = Done ([dquote] ++ text "\x41" ++ [dquote; nl]
             ++ [dquote] ++ text "\x42" ++ [dquote; nl]).
Proof. split; reflexivity. Qed.

(** ** Odd number of digits (C5) *)

Lemma odd_last (ds : list ascii) :
  Nat.odd (List.length ds) = true ->
  exists before d, ds = before ++ [d]
                   /\ Z.even (len before) = true.
Proof.
  intros Hodd. induction ds as [|a t _] using rev_ind; [discriminate Hodd|].
  exists t, a. split; [reflexivity|].
  rewrite length_app in Hodd. simpl in Hodd.
  rewrite Nat.add_1_r, Nat.odd_succ in Hodd.
  unfold len. rewrite Z.even_spec. apply Nat.even_spec in Hodd.
  destruct Hodd as [m Hm]. exists (Z.of_nat m). lia.
Qed.

(** C5: when the input holds an odd number of valid hex digits, the
    run yields an output (it does not fail) in which the last accepted
    digit stands as a lone escape, directly followed by the closing
    quote of the syntax (C and Python; none for plain), the trailing
    newline and, if any, the diagnostic line; the input made of the
    single digit 4 gives, in plain syntax, the escape of 4 and a
    newline.  The wrap width is any whose double is an [int]. *)
Theorem C5_odd_digit_count (verbose_flag interactive_flag : bool)
  (buf : list ascii) (s : syntax) (string_width : Z) :
  Nat.odd (List.length (accepted buf)) = true ->
  in_int (string_width * 2) = true ->
  (exists (before : list ascii) (d : ascii) (written : list ascii),
      accepted buf = before ++ [d]
      /\ output_hex_escaped_string verbose_flag interactive_flag
           buf (len buf) (lang_code s) string_width
         = Done (written ++ escape_prefix ++ [d]
                 ++ closing_quote s ++ [nl]
                 ++ warning verbose_flag (count_invalid buf)))
  /\ output_hex_escaped_string false false (text "4") 1
       (lang_code Plain) string_width
     = Done (text "\x4" ++ [nl]).
Proof.
  intros Hodd Hw. split.
  - destruct (odd_last _ Hodd) as (before & d & Hacc & Heven).
    exists before, d.
    exists (lead interactive_flag
            ++ declaration verbose_flag (lang_code s)
            ++ literal (due_in_code string_width) (lang_code s) 0 before
            ++ (if due_in_code string_width (len before)
                then wrap_marker (lang_code s) (len before =? 0) else [])).
    split; [exact Hacc|].
    rewrite formatter_spec by exact Hw. rewrite Hacc, literal_app.
    cbn [literal]. rewrite Z.add_0_l, Heven.
    replace (closing (lang_code s)) with (closing_quote s ++ [nl])
      by (destruct s; reflexivity).
    rewrite app_nil_r. rewrite <- !app_assoc. reflexivity.
  - change 1 with (len (text "4")) at 1.
    rewrite formatter_spec by exact Hw.
    change (accepted (text "4")) with ["4"%char]. cbn [literal].
    destruct (due_in_code string_width 0); reflexivity.
Qed.

Lemma C5_odd_digit_count_witness :
  Nat.odd (List.length (accepted (text "41z4"))) = true
  /\ in_int (1 * 2) = true
  /\ (exists (before : list ascii) (d : ascii) (written : list ascii),
         accepted (text "41z4") = before ++ [d]
         /\ output_hex_escaped_string true false
              (text "41z4") (len (text "41z4")) (lang_code PythonLiteral) 1
            = Done (written ++ escape_prefix ++ [d]
                    ++ closing_quote PythonLiteral ++ [nl]
                    ++ warning true (count_invalid (text "41z4"))))
  /\ output_hex_escaped_string false false (text "4") 1 (lang_code Plain) 1
     = Done (text "\x4" ++ [nl]).
Proof.
  split; [reflexivity|]. split; [reflexivity|].
  apply (C5_odd_digit_count true false (text "41z4") PythonLiteral 1);
    reflexivity.
Defined.

(** ** The byte 0xFF (C9) *)

Lemma high_byte_invalid (b : ascii) :
  (128 <=? byte_value b) && (byte_value b <=? 254) = true ->
  is_hex_digit b = false /\ is_skipped b = false.
Proof.
  destruct b as [[|] [|] [|] [|] [|] [|] [|] [|]]; vm_compute; intros H;
    try discriminate H; split; reflexivity.
Qed.

(** C9: the byte 0xFF, widened from (signed) [char] to [int], is -1,
    the value of EOF; the loop leaves its whole state unchanged on it,
    so the byte is neither written nor counted.  Every byte from 0x80
    to 0xFE adds one to the counter of invalid characters and changes
    nothing else.  On the five bytes 0xFF, 4, 0xFF, 1, 0x80 the verbose
    run writes the escape of 41 and reports one invalid character. *)
Theorem C9_byte_ff_is_eof (output_lang string_width : Z) (st : state) :
  char_to_int "255"%char = EOF
  /\ loop_body output_lang string_width (char_to_int "255"%char) st = Done st
  /\ (forall b : ascii,
         128 <= byte_value b <= 254 ->
         loop_body output_lang string_width (char_to_int b) st
         = Done (mkState (ai st) (invalidhexchar st + 1) (out st)))
  /\ output_hex_escaped_string true false
       ["255"%char; "4"%char; "255"%char; "1"%char; "128"%char] 5 0 0
     = Done (text "\x41" ++ [nl] ++ diagnostic_line 1).
Proof.
  split; [reflexivity|]. split; [|split].
  - apply loop_body_skipped. reflexivity.
  - intros b [Hlo Hhi].
    destruct (high_byte_invalid b) as [Hh Hs].
    { apply andb_true_intro. split; apply Z.leb_le; assumption. }
    apply loop_body_invalid; assumption.
  - reflexivity.
Qed.

Lemma C9_byte_ff_is_eof_witness :
  128 <= byte_value "200"%char <= 254
  /\ loop_body 1 4 (char_to_int "200"%char) (mkState 2 0 (text "\x41"))
     = Done (mkState 2 1 (text "\x41")).
Proof.
  assert (H : 128 <= byte_value "200"%char <= 254) by (vm_compute; split; discriminate).
  split; [exact H|].
  exact (proj1 (proj2 (proj2 (C9_byte_ff_is_eof 1 4 (mkState 2 0 (text "\x41")))))
           "200"%char H).
Defined.

(** ** The bad-character sequence (C6) *)

Lemma for_range_sorted (lo hi : Z) : StronglySorted Z.lt (for_range lo hi).
Proof.
  unfold for_range. generalize (Z.to_nat (hi - lo)) as n. intros n.
  generalize 0%nat as start. induction n as [|n IH]; intros start; simpl.
  - constructor.
  - constructor; [apply IH|].
    apply Forall_forall. intros x Hx. apply in_map_iff in Hx.
    destruct Hx as (k & Hk & Hin). apply in_seq in Hin. lia.
Qed.

Lemma sorted_NoDup (l : list Z) : StronglySorted Z.lt l -> NoDup l.
Proof.
  induction 1 as [|a l Hs IH Hall]; constructor; [|exact IH].
  intros Hin. rewrite Forall_forall in Hall. specialize (Hall a Hin). lia.
Qed.

(** The text that the generator leaves in its block. *)
Lemma badchar_cells :
  cells generate_badchar_sequence
  = map Some (flat_map two_hex (for_range 1 256)).
Proof. vm_compute. reflexivity. Qed.

(** The last [sprintf] puts its terminating null one position past the
    end of the block of [BADCHAR_HEX_SEQLEN] bytes. *)
Lemma badchar_overrun :
  overrun generate_badchar_sequence = [(BADCHAR_HEX_SEQLEN, NUL)].
Proof. vm_compute. reflexivity. Qed.

Lemma content_written (junk : Z -> ascii) (l : list ascii) (i : Z) :
  content_from junk i (map Some l) = l.
Proof.
  revert i. induction l as [|b t IH]; intros i; simpl;
    [reflexivity | rewrite IH; reflexivity].
Qed.

(** C6: the block the generator returns holds the concatenation, for
    [i] from 1 to 255, of the two-character lowercase hexadecimal
    representation of [i]: 510 characters, every position written;
    read two by two the pairs are those of 1, 2, ..., 255, hence
    strictly ascending, without a duplicate and without the pair 00;
    and the gen-badchar action of [main] calls the formatter on these
    characters with length 510. *)
Theorem C6_badchar_sequence :
  let expected := flat_map two_hex (for_range 1 256) in
  cells generate_badchar_sequence = map Some expected
  /\ len expected = 510
  /\ firstn 6 expected = text "010203"
  /\ skipn 504 expected = text "fdfeff"
  /\ byte_groups expected = map two_hex (for_range 1 256)
  /\ map hex_value (byte_groups expected) = for_range 1 256
  /\ StronglySorted Z.lt (map hex_value (byte_groups expected))
  /\ NoDup (byte_groups expected)
  /\ ~ In (text "00") (byte_groups expected)
  /\ forall (junk : Z -> ascii) (v : vars) (s : streams),
       content junk generate_badchar_sequence = expected
       /\ gen_badchar_action junk v s
          = (when (verbose_flag v)
               (print_out (line "[*] Generating bad character binary string.") ;;;
                width_notice v) ;;;
             match output_hex_escaped_string
                     (verbose_flag v) (interactive_flag v)
                     expected 510 (output_lang v) (string_width v) with
             | Done t => print_out t
             | Undef u => fault u
             end ;;;
             exit EXIT_SUCCESS) s.
Proof.
  intros expected.
  assert (Hvals : map hex_value (byte_groups expected) = for_range 1 256)
    by (vm_compute; reflexivity).
  assert (Hsorted : StronglySorted Z.lt (map hex_value (byte_groups expected)))
    by (rewrite Hvals; apply for_range_sorted).
  assert (Hcontent : forall junk, content junk generate_badchar_sequence
                                  = expected).
  { intros junk. unfold content. rewrite badchar_cells.
    apply content_written. }
  split; [exact badchar_cells|].
  split; [vm_compute; reflexivity|].
  split; [vm_compute; reflexivity|].
  split; [vm_compute; reflexivity|].
  split; [vm_compute; reflexivity|].
  split; [exact Hvals|].
  split; [exact Hsorted|].
  split; [exact (NoDup_map_inv hex_value _ (sorted_NoDup _ Hsorted))|].
  split.
  - intros Hin. apply (in_map hex_value) in Hin. rewrite Hvals in Hin.
    change (hex_value (text "00")) with 0 in Hin.
    unfold for_range in Hin. apply in_map_iff in Hin.
    destruct Hin as (k & Hk & _). lia.
  - intros junk v s. split; [apply Hcontent|].
    unfold gen_badchar_action, call_formatter. rewrite Hcontent.
    reflexivity.
Qed.

(** ** The program: unreadable files (C7) and the usage text (C8) *)

Section ProgramProperties.

Variables program_version program_build_time : list ascii.
Variable program_build : option (list ascii).
Variable atoi : list ascii -> Z.
Variable stdin_content : list ascii.
Variable fs : list ascii -> option (list ascii).
Variable junk : Z -> ascii.

Lemma read_from_file_unreadable (filename : list ascii)
  (array_size mode : Z) (s : streams) :
  fs filename = None ->
  read_from_file fs filename array_size mode s
  = Exit EXIT_FAILURE
      (mkStreams (stdout s ++ cannot_be_read filename) (stderr s)).
Proof.
  intros Hfs. unfold read_from_file. rewrite Hfs. reflexivity.
Qed.

(** C7, as the code has it: when the file named by [fread_filename]
    cannot be opened, the dump-file action and the hex-escape action
    reading a file (option [-f] or [-D]) end the process with status
    [EXIT_FAILURE], which is not zero; standard output holds the message
    with the path between quotes, preceded for the hex-escape action by
    its verbose banner when the verbose flag is set, and nothing else:
    no dump and no literal; standard error holds nothing. *)
Theorem C7_unreadable_file (inv : invocation) (v : vars) :
  fs (fread_filename v) = None ->
  (optind inv <? argc inv) || (argc inv =? 1) = false ->
  selects_file_input v = true ->
  after_options stdin_content fs junk inv v (mkStreams [] [])
  = Exit EXIT_FAILURE
      (mkStreams (hex_escape_banner v ++ cannot_be_read (fread_filename v)) [])
  /\ EXIT_FAILURE <> 0
  /\ forall (array_size mode : Z) (s : streams),
       read_from_file fs (fread_filename v) array_size mode s
       = Exit EXIT_FAILURE
           (mkStreams (stdout s ++ cannot_be_read (fread_filename v))
                      (stderr s)).
Proof.
  intros Hfs Hargs Hsel. split; [|split].
  - unfold after_options. rewrite Hargs.
    unfold selects_file_input in Hsel. unfold hex_escape_banner.
    destruct (doOutputHexEscapedString v).
    + unfold hex_escape_action, bind, when, width_notice, when.
      destruct (verbose_flag v), (doLimitBinaryStringWidth v);
        destruct (doHexDumpFile v), (doReadFromFile v);
        try discriminate Hsel; simpl;
        rewrite read_from_file_unreadable by exact Hfs; simpl;
        rewrite <- ?app_assoc; reflexivity.
    + simpl in Hsel. rewrite Hsel.
      unfold dump_file_action, bind.
      rewrite read_from_file_unreadable by exact Hfs. reflexivity.
  - discriminate.
  - intros. apply read_from_file_unreadable, Hfs.
Qed.

End ProgramProperties.

Lemma C7_unreadable_file_witness :
  let v := mkVars true false true false false true true
                  (text "nofile") 0 [] 8 in
  let inv := mkInvocation 7 (text "bstrings")
               [FlagStored verbose_flag_addr true; Returned 120 None 0;
                Returned 102 (Some (text "nofile")) 0;
                Returned 119 (Some (text "8")) 0] 7 in
  (fun _ : list ascii => @None (list ascii)) (fread_filename v) = None
  /\ (optind inv <? argc inv) || (argc inv =? 1) = false
  /\ selects_file_input v = true
  /\ after_options [] (fun _ => None) (fun _ => NUL) inv v (mkStreams [] [])
     = Exit EXIT_FAILURE
         (mkStreams (hex_escape_banner v ++ cannot_be_read (fread_filename v))
                    []).
Proof.
  intros v inv.
  split; [reflexivity|]. split; [reflexivity|]. split; [reflexivity|].
  apply (C7_unreadable_file [] (fun _ => None) (fun _ => NUL) inv v);
    reflexivity.
Defined.

(** C7 as stated fails: for the dump-file action on a path that cannot
    be opened, the message is written to standard output, which is
    therefore not empty. *)
Lemma C7_message_goes_to_stdout :
  empty_world_run zeroed
    (mkInvocation 3 (text "bstrings")
       [Returned 68 (Some (text "nofile")) 0] 3)
  = Exited 1 (mkStreams (cannot_be_read (text "nofile")) [])
  /\ cannot_be_read (text "nofile") <> [].
Proof. split; [reflexivity | discriminate]. Qed.

(** The dump-file action alone, whatever the uninitialised variables
    hold: the path kept in [fread_filename] is the first 511 characters
    of the argument. *)
Lemma dump_file_unreadable_run (g : indeterminate) (path : list ascii)
  (stdin_content : list ascii) (junk : Z -> ascii) :
  run_main [] [] None (fun _ => 0) stdin_content (fun _ => None) junk g
    (mkInvocation 3 (text "bstrings") [Returned 68 (Some path) 0] 3)
  = Exited EXIT_FAILURE
      (mkStreams (cannot_be_read (snprintf_s MAX_FILENAME_LENGTH path)) []).
Proof.
  destruct g as [[|] [|] [|] [|] fn al]; reflexivity.
Qed.

Section UsageProperties.

Variables program_version program_build_time : list ascii.
Variable program_build : option (list ascii).
Variable atoi : list ascii -> Z.
Variable stdin_content : list ascii.
Variable fs : list ascii -> option (list ascii).
Variable junk : Z -> ascii.

Lemma option_loop_modifiers (program_name : list ascii)
  (rs : list getopt_return) (v : vars) (s : streams) :
  forallb is_modifier rs = true ->
  exists v',
    option_loop program_version program_build_time program_build atoi
      program_name rs v s = Ret v' s.
Proof.
  revert v. induction rs as [|r rest IH]; intros v Hmod.
  - exists v. reflexivity.
  - simpl in Hmod. apply andb_prop in Hmod. destruct Hmod as [Hr Hrest].
    destruct r as [flag val | opt optarg optopt]; simpl option_loop.
    + unfold bind. simpl. apply IH, Hrest.
    + simpl in Hr.
      destruct (Z.eqb_spec opt 102) as [->|_];
        [unfold bind; simpl; apply IH, Hrest|].
      destruct (Z.eqb_spec opt 119) as [->|_];
        [unfold bind; simpl; apply IH, Hrest|].
      destruct (Z.eqb_spec opt 115) as [->|_];
        [unfold bind; simpl; apply IH, Hrest|].
      discriminate Hr.
Qed.

(** C8, as the code has it: an invocation that gives modifiers only
    (none of the three actions) and either has no command-line argument
    at all ([argc = 1]) or leaves a non-option argument after the
    options ([optind < argc]) writes the usage text to standard output,
    nothing to standard error, and exits with status 0, whichever
    modifiers were given. *)
Theorem C8_usage_on_stdout (g : indeterminate) (inv : invocation) :
  forallb is_modifier (parsed inv) = true ->
  optind inv < argc inv \/ argc inv = 1 ->
  run_main program_version program_build_time program_build atoi
    stdin_content fs junk g inv
  = Exited 0 (mkStreams (print_usage (argv0 inv)) []).
Proof.
  intros Hmod Hargs. unfold run_main, main, bind.
  destruct (option_loop_modifiers (argv0 inv) (parsed inv)
              (initial_vars g) (mkStreams [] []) Hmod) as [v' Hv'].
  rewrite Hv'. unfold after_options.
  assert (Hc : (optind inv <? argc inv) || (argc inv =? 1) = true).
  { apply orb_true_iff. destruct Hargs as [H|H];
      [left; apply Z.ltb_lt, H | right; apply Z.eqb_eq, H]. }
  rewrite Hc. reflexivity.
Qed.

End UsageProperties.

Lemma C8_usage_on_stdout_witness :
  let inv := mkInvocation 4 (text "bstrings")
               [FlagStored verbose_flag_addr true;
                Returned 119 (Some (text "8")) 0] 3 in
  forallb is_modifier (parsed inv) = true
  /\ (optind inv < argc inv \/ argc inv = 1)
  /\ empty_world_run zeroed inv
     = Exited 0 (mkStreams (print_usage (argv0 inv)) []).
Proof.
  intros inv. split; [reflexivity|].
  assert (H : optind inv < argc inv \/ argc inv = 1) by (left; reflexivity).
  split; [exact H|].
  exact (C8_usage_on_stdout [] [] None (fun _ => 0) [] (fun _ => None)
           (fun _ => NUL) zeroed inv eq_refl H).
Defined.

(** C8 as stated fails: the invocation made of the single modifier
    [--verbose] selects no action, and with the uninitialised action
    flags all false the program ends with status 0 having written
    nothing, so no usage text. *)
Lemma C8_modifier_only_prints_no_usage :
  is_modifier (FlagStored verbose_flag_addr true) = true
  /\ empty_world_run zeroed
       (mkInvocation 2 (text "bstrings") [FlagStored verbose_flag_addr true] 2)
     = Exited 0 (mkStreams [] [])
  /\ empty_world_run zeroed
       (mkInvocation 2 (text "bstrings") [FlagStored verbose_flag_addr true] 2)
     <> Exited 0 (mkStreams (print_usage (text "bstrings")) []).
Proof.
  split; [reflexivity|]. split; [reflexivity|]. vm_compute. discriminate.
Qed.

(** Whatever the uninitialised variables hold, that invocation does not
    write the usage text. *)
Lemma modifier_only_never_usage (g : indeterminate) :
  empty_world_run g
    (mkInvocation 2 (text "bstrings") [FlagStored verbose_flag_addr true] 2)
  <> Exited 0 (mkStreams (print_usage (text "bstrings")) []).
Proof.
  destruct g as [[|] [|] [|] [|] fn al]; vm_compute; discriminate.
Qed.

(** ** The length handed to the formatter (C10) *)

Lemma set_nth_end (l : list ascii) (b : ascii) (r : list cell) :
  set_nth (List.length l) b (map Some l ++ None :: r)
  = map Some (l ++ [b]) ++ r.
Proof.
  induction l as [|a t IH]; simpl; [reflexivity | rewrite IH; reflexivity].
Qed.

Lemma store_end (l : list ascii) (b : ascii) (r : list cell) :
  store (mkBlock (map Some l ++ None :: r) []) (len l) b
  = mkBlock (map Some (l ++ [b]) ++ r) [].
Proof.
  unfold store. cbn [cells overrun].
  match goal with
  | |- (if ?c then _ else _) = _ => assert (Hin : c = true)
  end.
  { apply andb_true_intro. split; [apply Z.leb_le, len_nonneg|].
    apply Z.ltb_lt. rewrite len_app, len_cons. unfold len.
    rewrite length_map. lia. }
  rewrite Hin. unfold len at 1. rewrite Nat2Z.id, set_nth_end. reflexivity.
Qed.

Lemma grow_by (cs : list cell) (k : nat) :
  change_dynamic_memory (mkBlock cs []) (1 * (len cs + Z.of_nat k))
  = mkBlock (cs ++ repeat None k) [].
Proof.
  unfold change_dynamic_memory, len. simpl cells.
  replace (Z.to_nat (1 * (Z.of_nat (List.length cs) + Z.of_nat k)))
    with (List.length cs + k)%nat by lia.
  rewrite firstn_all2 by lia.
  replace (List.length cs + k - List.length cs)%nat with k by lia.
  reflexivity.
Qed.

Lemma in_int_small (n : Z) : 0 <= n <= INT_MAX -> in_int n = true.
Proof.
  intros [Hlo Hhi]. unfold in_int, INT_MIN. apply andb_true_intro.
  split; apply Z.leb_le; [lia | exact Hhi].
Qed.

Lemma len_map_Some (l : list ascii) : len (map Some l) = len l.
Proof. unfold len. rewrite length_map. reflexivity. Qed.

(** The loop of [read_and_store_char_input], started on a block that
    holds [pre] and one unwritten cell. *)
Lemma store_loop_spec (input pre : list ascii) :
  len pre + len input + 1 <= INT_MAX ->
  store_loop input (mkBlock (map Some pre ++ [None]) [], len pre + 1, len pre)
  = Done (mkBlock (map Some (pre ++ input) ++ [None]) [],
          len (pre ++ input) + 1, len (pre ++ input)).
Proof.
  revert pre. induction input as [|b t IH]; intros pre Hlen.
  - rewrite app_nil_r. reflexivity.
  - rewrite len_cons in Hlen. cbn [store_loop]. unfold store_char.
    rewrite int_to_byte_byte_value, store_end.
    assert (Hint : in_int (len pre + 1 + 1) = true).
    { apply in_int_small. pose proof (len_nonneg pre).
      pose proof (len_nonneg t). lia. }
    rewrite Hint. cbn [negb].
    replace (len pre + 1 + 1)
      with (len (map Some (pre ++ [b]) ++ []) + Z.of_nat 1)
      by (rewrite app_nil_r, len_map_Some, len_app; reflexivity).
    rewrite grow_by. rewrite app_nil_r. cbn [repeat].
    rewrite len_map_Some.
    replace (len (pre ++ [b]) + Z.of_nat 1) with (len (pre ++ [b]) + 1)
      by reflexivity.
    replace (len pre + 1) with (len (pre ++ [b]))
      by (rewrite len_app; reflexivity).
    rewrite IH.
    + rewrite <- app_assoc. reflexivity.
    + rewrite len_app. change (len [b]) with 1. lia.
Qed.

(** The loop of [read_from_file] in mode 1. *)
Lemma file_loop_1_spec (file pre : list ascii) :
  len pre + len file + 1 <= INT_MAX ->
  file_loop 1 file
    (Some (mkBlock (map Some pre ++ [None]) []), len pre + 1, len pre)
  = Done (Some (mkBlock (map Some (pre ++ file) ++ [None]) []),
          len (pre ++ file) + 1, len (pre ++ file)).
Proof.
  revert pre. induction file as [|b t IH]; intros pre Hlen.
  - rewrite app_nil_r. reflexivity.
  - rewrite len_cons in Hlen. cbn [file_loop file_char].
    rewrite int_to_byte_byte_value, store_end.
    assert (Hint : in_int (len pre + 1 + 1) = true).
    { apply in_int_small. pose proof (len_nonneg pre).
      pose proof (len_nonneg t). lia. }
    rewrite Hint. cbn [negb].
    replace (len pre + 1 + 1)
      with (len (map Some (pre ++ [b]) ++ []) + Z.of_nat 1)
      by (rewrite app_nil_r, len_map_Some, len_app; reflexivity).
    rewrite grow_by. rewrite app_nil_r. cbn [repeat].
    rewrite len_map_Some.
    replace (len (pre ++ [b]) + Z.of_nat 1) with (len (pre ++ [b]) + 1)
      by reflexivity.
    replace (len pre + 1) with (len (pre ++ [b]))
      by (rewrite len_app; reflexivity).
    rewrite IH.
    + rewrite <- app_assoc. reflexivity.
    + rewrite len_app. change (len [b]) with 1. lia.
Qed.

Lemma expand_byte (b : ascii) :
  snprintf_s 3 (fmt_02x (byte_value b)) = two_hex (byte_value b).
Proof. rewrite fmt_02x_byte. reflexivity. Qed.

(** The loop of [read_from_file] in mode 2. *)
Lemma file_loop_2_spec (file pre : list ascii) :
  len pre + 2 * len file + 2 <= INT_MAX ->
  file_loop 2 file
    (Some (mkBlock (map Some pre ++ [None; None]) []), len pre + 2, len pre)
  = Done (Some (mkBlock (map Some (pre ++ dump file) ++ [None; None]) []),
          len (pre ++ dump file) + 2, len (pre ++ dump file)).
Proof.
  revert pre. induction file as [|b t IH]; intros pre Hlen.
  - unfold dump. simpl flat_map. rewrite app_nil_r. reflexivity.
  - rewrite len_cons in Hlen. cbn [file_loop file_char].
    rewrite expand_byte. unfold two_hex. cbn [nth].
    set (h := lower_hex_digit (byte_value b / 16)).
    set (l := lower_hex_digit (byte_value b mod 16)).
    rewrite store_end.
    replace (len pre + 1) with (len (pre ++ [h]))
      by (rewrite len_app; reflexivity).
    rewrite store_end.
    assert (Hint : in_int (len pre + 2 + 2) = true).
    { apply in_int_small. pose proof (len_nonneg pre).
      pose proof (len_nonneg t). lia. }
    rewrite Hint. cbn [negb].
    replace (len pre + 2 + 2)
      with (len (map Some ((pre ++ [h]) ++ [l]) ++ []) + Z.of_nat 2)
      by (rewrite app_nil_r, len_map_Some, !len_app;
          change (len [h]) with 1; change (len [l]) with 1;
          change (Z.of_nat 2) with 2; lia).
    rewrite grow_by. rewrite app_nil_r. cbn [repeat].
    rewrite len_map_Some.
    replace (len ((pre ++ [h]) ++ [l]) + Z.of_nat 2)
      with (len ((pre ++ [h]) ++ [l]) + 2) by reflexivity.
    replace (len pre + 2) with (len ((pre ++ [h]) ++ [l]))
      by (rewrite !len_app; change (len [h]) with 1;
          change (len [l]) with 1; lia).
    rewrite IH.
    + unfold dump. cbn [flat_map]. rewrite fmt_02x_byte. unfold two_hex.
      fold h l. rewrite <- !app_assoc. reflexivity.
    + rewrite !len_app. change (len [h]) with 1. change (len [l]) with 1.
      lia.
Qed.

Lemma content_from_app (junk : Z -> ascii) (l1 l2 : list cell) (i : Z) :
  content_from junk i (l1 ++ l2)
  = content_from junk i l1 ++ content_from junk (i + len l1) l2.
Proof.
  revert i. induction l1 as [|c t IH]; intros i.
  - simpl. change (len []) with 0. rewrite Z.add_0_r. reflexivity.
  - rewrite len_cons.
    replace (i + (1 + len t)) with (i + 1 + len t) by lia.
    destruct c; simpl; rewrite IH; reflexivity.
Qed.

Lemma content_stored (junk : Z -> ascii) (stored : list ascii)
  (rest : list cell) :
  content junk (mkBlock (map Some stored ++ rest) [])
  = stored ++ content_from junk (len stored) rest.
Proof.
  unfold content. cbn [cells].
  rewrite content_from_app, content_written, len_map_Some. reflexivity.
Qed.

Lemma feed_app (output_lang string_width : Z) (l1 l2 : list ascii)
  (st : state) :
  feed output_lang string_width (l1 ++ l2) st
  = match feed output_lang string_width l1 st with
    | Done st' => feed output_lang string_width l2 st'
    | Undef u => Undef u
    end.
Proof.
  revert st. induction l1 as [|b t IH]; intros st; simpl; [reflexivity|].
  destruct (loop_body output_lang string_width (char_to_int b) st);
    [apply IH | reflexivity].
Qed.

(** C10: started with [array_size = 1] as [main] does, the collector
    returns a length that exceeds the number of characters stored by
    exactly one for standard input and for a file read in mode 1, and by
    exactly two for a file read in mode 2 (hex expansion); the cells
    beyond the stored characters belong to the block and were never
    written.  The formatter's loop, run up to that length, applies its
    body to the bytes found in these trailing cells after the stored
    ones: with standard input 41 and the unwritten cell holding the
    character 4, the program writes the escape of 41 followed by a lone
    escape of 4. *)
Theorem C10_length_exceeds_stored (interactive_flag : bool)
  (input : list ascii) (fs : list ascii -> option (list ascii))
  (filename : list ascii) (junk : Z -> ascii) (s : streams) :
  fs filename = Some input ->
  (len input + 1 <= INT_MAX ->
   exists (ptr_char_array : block) (array_size : Z),
     read_and_store_char_input interactive_flag input 1 s
     = Ret (ptr_char_array, array_size)
           (mkStreams (stdout s ++ prompt interactive_flag) (stderr s))
     /\ handed_over ptr_char_array array_size input 1
     /\ content junk ptr_char_array = input ++ [junk (len input)])
  /\ (len input + 1 <= INT_MAX ->
      exists (ptr_char_array : block) (array_size : Z),
        read_from_file fs filename 1 1 s
        = Ret (Some ptr_char_array, array_size) s
        /\ handed_over ptr_char_array array_size input 1
        /\ content junk ptr_char_array = input ++ [junk (len input)])
  /\ (2 * len input + 2 <= INT_MAX ->
      exists (ptr_char_array : block) (array_size : Z),
        read_from_file fs filename 1 2 s
        = Ret (Some ptr_char_array, array_size) s
        /\ handed_over ptr_char_array array_size (dump input) 2
        /\ len (dump input) = 2 * len input
        /\ content junk ptr_char_array
           = dump input ++ [junk (len (dump input));
                            junk (len (dump input) + 1)])
  /\ (forall (stored trailing : list ascii) (output_lang string_width : Z)
             (st : state),
         scan (stored ++ trailing) output_lang string_width
           (Z.to_nat (len stored + len trailing)) 0 st
         = match feed output_lang string_width stored st with
           | Done st' => feed output_lang string_width trailing st'
           | Undef u => Undef u
           end)
  /\ run_main [] [] None (fun _ => 0) (text "41") (fun _ => None)
       (fun _ => "4"%char) zeroed
       (mkInvocation 2 (text "bstrings") [Returned 120 None 0] 2)
     = Exited 0 (mkStreams (text "\x41\x4" ++ [nl]) []).
Proof.
  intros Hfs.
  assert (Hover : forall stored k,
             handed_over (mkBlock (map Some stored ++ repeat None k) [])
               (len stored + Z.of_nat k) stored k).
  { intros stored k. unfold handed_over. cbn [cells overrun].
    repeat split. rewrite len_app, len_map_Some. unfold len.
    rewrite repeat_length. reflexivity. }
  split; [|split; [|split; [|split]]].
  - intros Hlen.
    exists (mkBlock (map Some input ++ [None]) []), (len input + 1).
    split; [|split].
    + unfold read_and_store_char_input, bind, when, prompt, line.
      pose proof (store_loop_spec input [] Hlen) as Hloop.
      cbn [app map] in Hloop. change (len []) with 0 in Hloop.
      change (allocate_dynamic_memory 1) with (mkBlock [None] []).
      cbn [Z.add] in Hloop.
      destruct interactive_flag; cbn [print_out ret]; rewrite Hloop;
        unfold ret; rewrite ?app_nil_r; destruct s; reflexivity.
    + exact (Hover input 1%nat).
    + rewrite content_stored. reflexivity.
  - intros Hlen.
    exists (mkBlock (map Some input ++ [None]) []), (len input + 1).
    split; [|split].
    + unfold read_from_file. rewrite Hfs. cbn [Z.leb Z.compare].
      pose proof (file_loop_1_spec input [] Hlen) as Hloop.
      cbn [app map] in Hloop. change (len []) with 0 in Hloop.
      cbn [Z.add] in Hloop.
      change (allocate_dynamic_memory 1) with (mkBlock [None] []).
      rewrite Hloop. reflexivity.
    + exact (Hover input 1%nat).
    + rewrite content_stored. reflexivity.
  - intros Hlen.
    exists (mkBlock (map Some (dump input) ++ [None; None]) []),
           (len (dump input) + 2).
    split; [|split; [|split]].
    + unfold read_from_file. rewrite Hfs. cbn [Z.leb Z.compare].
      assert (Hlen' : len (@nil ascii) + 2 * len input + 2 <= INT_MAX)
        by (change (len []) with 0; lia).
      pose proof (file_loop_2_spec input [] Hlen') as Hloop.
      cbn [app map] in Hloop. change (len []) with 0 in Hloop.
      cbn [Z.add] in Hloop.
      change (in_int (1 + 1)) with true. cbn [negb].
      change (allocate_dynamic_memory (1 * 2))
        with (mkBlock [None; None] []).
      change (1 + 1) with 2.
      rewrite Hloop. reflexivity.
    + exact (Hover (dump input) 2%nat).
    + clear. induction input as [|b t IH]; [reflexivity|].
      unfold dump in *. cbn [flat_map]. rewrite len_app, IH, len_cons.
      rewrite fmt_02x_byte. change (len (two_hex (byte_value b))) with 2.
      lia.
    + rewrite content_stored. reflexivity.
  - intros stored trailing output_lang string_width st.
    rewrite <- len_app, scan_whole. apply feed_app.
  - vm_compute. reflexivity.
Qed.

Lemma C10_length_exceeds_stored_witness :
  let fs := fun _ : list ascii => Some (text "AB") in
  fs (text "payload") = Some (text "AB")
  /\ 2 * len (text "AB") + 2 <= INT_MAX
  /\ exists (ptr_char_array : block) (array_size : Z),
       read_from_file fs (text "payload") 1 2 (mkStreams [] [])
       = Ret (Some ptr_char_array, array_size) (mkStreams [] [])
       /\ handed_over ptr_char_array array_size (dump (text "AB")) 2
       /\ len (dump (text "AB")) = 2 * len (text "AB")
       /\ content (fun _ => NUL) ptr_char_array
          = dump (text "AB") ++ [NUL; NUL].
Proof.
  intros fs.
  assert (H : 2 * len (text "AB") + 2 <= INT_MAX) by (vm_compute; discriminate).
  split; [reflexivity|]. split; [exact H|].
  exact (proj1 (proj2 (proj2
           (C10_length_exceeds_stored false (text "AB") fs (text "payload")
              (fun _ => NUL) (mkStreams [] []) eq_refl))) H).
Defined.

(* ================================================================= *)
(** * Further properties of the formatter *)

Lemma literal_unbroken (due : Z -> bool) (output_lang : Z) (ds : list ascii) :
  (forall k, due k = false) ->
  forall j, literal due output_lang (2 * j) ds = unbroken ds.
Proof.
  intros Hdue. unfold unbroken.
  induction ds as [| h | h l t IH] using pair_induction; intros j.
  - reflexivity.
  - cbn [literal byte_groups flat_map]. rewrite Z.even_mul. cbn [Z.even orb].
    rewrite Hdue. rewrite !app_nil_r. reflexivity.
  - cbn [literal byte_groups flat_map]. rewrite Z.even_mul. cbn [Z.even orb].
    replace (Z.even (2 * j + 1)) with false
      by (symmetry; rewrite Z.even_add, Z.even_mul; reflexivity).
    rewrite Hdue. replace (2 * j + 1 + 1) with (2 * (j + 1)) by lia.
    rewrite IH. rewrite <- !app_assoc. reflexivity.
Qed.

Lemma concat_byte_groups (ds : list ascii) :
  List.concat (byte_groups ds) = ds.
Proof.
  induction ds as [| h | h l t IH] using pair_induction;
    [reflexivity | reflexivity |].
  cbn [byte_groups List.concat]. rewrite IH. reflexivity.
Qed.

Lemma unbroken_chars (ds : list ascii) (c : ascii) :
  In c (unbroken ds) -> In c escape_prefix \/ In c ds.
Proof.
  unfold unbroken. intros Hin. apply in_flat_map in Hin.
  destruct Hin as (g & Hg & Hc). apply in_app_or in Hc.
  destruct Hc as [Hc|Hc]; [left; exact Hc|]. right.
  rewrite <- (concat_byte_groups ds). apply in_concat. exists g. split; assumption.
Qed.

Lemma formatter_width_zero (verbose_flag interactive_flag : bool)
  (buf : list ascii) (output_lang : Z) :
  output_hex_escaped_string verbose_flag interactive_flag buf (len buf)
    output_lang 0
  = Done (lead interactive_flag ++ declaration verbose_flag output_lang
          ++ unbroken (accepted buf)
          ++ closing output_lang
          ++ warning verbose_flag (count_invalid buf)).
Proof.
  rewrite formatter_spec by reflexivity.
  pose proof (literal_unbroken (due_in_code 0) output_lang (accepted buf)
                (fun k => eq_refl) 0) as H.
  change (2 * 0) with 0 in H. rewrite H. reflexivity.
Qed.

Lemma unbroken_plain (buf : list ascii) :
  Forall (fun c => c <> nl /\ c <> dquote) (unbroken (accepted buf)).
Proof.
  apply Forall_forall. intros c Hc. apply unbroken_chars in Hc.
  destruct Hc as [Hc|Hc].
  - simpl in Hc. destruct Hc as [<-|[<-|[]]]; split; discriminate.
  - apply filter_In in Hc. destruct Hc as [_ Hd].
    destruct (hex_digit_plain c Hd) as (_ & H2 & H3 & _).
    split; intros ->; discriminate.
Qed.

(** With wrap width 0 no wrap marker is written, whatever the syntax:
    the literal part of the output is the escape prefix and the digits
    of each byte, one after the other, and holds neither a newline nor
    a quote character. *)
Theorem width_zero_unbroken (verbose_flag interactive_flag : bool)
  (buf : list ascii) (output_lang : Z) :
  output_hex_escaped_string verbose_flag interactive_flag buf (len buf)
    output_lang 0
  = Done (lead interactive_flag ++ declaration verbose_flag output_lang
          ++ unbroken (accepted buf)
          ++ closing output_lang
          ++ warning verbose_flag (count_invalid buf))
  /\ Forall (fun c => c <> nl /\ c <> dquote) (unbroken (accepted buf)).
Proof.
  split; [apply formatter_width_zero | apply unbroken_plain].
Qed.

Lemma due_in_code_opp (w k : Z) : due_in_code (- w) k = due_in_code w k.
Proof.
  unfold due_in_code.
  destruct (Z.eqb_spec w 0) as [->|Hw]; [reflexivity|].
  destruct (Z.eqb_spec (- w) 0) as [E|_]; [lia|].
  replace (- w * 2) with (- (w * 2)) by lia.
  rewrite Z.rem_opp_r by lia. reflexivity.
Qed.

(** A negative wrap width wraps like its absolute value: the loop only
    tests whether the remainder by [string_width*2] is zero. *)
Theorem negative_width_like_positive (verbose_flag interactive_flag : bool)
  (buf : list ascii) (output_lang w : Z) :
  in_int (w * 2) = true -> in_int (- w * 2) = true ->
  output_hex_escaped_string verbose_flag interactive_flag buf (len buf)
    output_lang (- w)
  = output_hex_escaped_string verbose_flag interactive_flag buf (len buf)
      output_lang w.
Proof.
  intros Hw Hw'. rewrite !formatter_spec by assumption.
  rewrite (literal_ext (due_in_code (- w)) (due_in_code w)); [reflexivity|].
  intros k _. apply due_in_code_opp.
Qed.

Lemma negative_width_like_positive_witness :
  in_int (3 * 2) = true /\ in_int (- 3 * 2) = true
  /\ output_hex_escaped_string false false (text "0102030405060708")
       (len (text "0102030405060708")) 1 (- 3)
     = output_hex_escaped_string false false (text "0102030405060708")
         (len (text "0102030405060708")) 1 3.
Proof.
  split; [reflexivity|]. split; [reflexivity|].
  apply (negative_width_like_positive false false (text "0102030405060708")
           1 3); reflexivity.
Defined.

Lemma feed_no_digit (output_lang string_width : Z) (cs : list ascii)
  (st : state) :
  accepted cs = [] ->
  feed output_lang string_width cs st
  = Done (mkState (ai st) (invalidhexchar st + count_invalid cs) (out st)).
Proof.
  revert st. induction cs as [|b t IH]; intros st Hacc.
  - simpl. change (count_invalid []) with 0. rewrite Z.add_0_r.
    destruct st; reflexivity.
  - unfold accepted in Hacc. simpl in Hacc.
    destruct (is_hex_digit b) eqn:Hb; [discriminate Hacc|].
    simpl feed. unfold loop_body. rewrite is_hex_case_byte, Hb.
    rewrite (IH _ Hacc). rewrite count_invalid_cons. unfold is_invalid.
    rewrite Hb, default_case_spec. simpl negb. simpl andb.
    destruct (is_skipped b); cbn [negb ai invalidhexchar out];
      f_equal; f_equal; lia.
Qed.

(** When the input holds no valid hex digit (in particular when it is
    empty) the wrap width is never looked at: for every width, even one
    whose double is not an [int], the output is the preamble, the
    closing quote of the C and Python syntaxes, the newline and the
    diagnostic. *)
Theorem no_digit_any_width (verbose_flag interactive_flag : bool)
  (buf : list ascii) (output_lang string_width : Z) :
  accepted buf = [] ->
  output_hex_escaped_string verbose_flag interactive_flag buf (len buf)
    output_lang string_width
  = Done (lead interactive_flag ++ declaration verbose_flag output_lang
          ++ closing output_lang
          ++ warning verbose_flag (count_invalid buf)).
Proof.
  intros Hacc. unfold output_hex_escaped_string.
  rewrite scan_whole, (feed_no_digit _ _ _ _ Hacc).
  unfold lead. destruct interactive_flag; simpl; rewrite <- ?app_assoc;
    reflexivity.
Qed.

Lemma no_digit_any_width_witness :
  accepted (text "zz top") = []
  /\ output_hex_escaped_string true false (text "zz top")
       (len (text "zz top")) 1 2147483647
     = Done (lead false ++ declaration true 1 ++ closing 1
             ++ warning true (count_invalid (text "zz top"))).
Proof.
  split; [reflexivity|].
  apply (no_digit_any_width true false (text "zz top") 1 2147483647).
  reflexivity.
Defined.

Lemma scan_feed_within (pre cs rest : list ascii)
  (output_lang string_width : Z) (st : state) :
  scan (pre ++ cs ++ rest) output_lang string_width (List.length cs)
    (len pre) st
  = feed output_lang string_width cs st.
Proof.
  revert pre st. induction cs as [|b t IH]; intros pre st; simpl.
  - reflexivity.
  - assert (Hlt : (len pre <? 0) = false) by (apply Z.ltb_ge, len_nonneg).
    rewrite Hlt. unfold len at 1. rewrite Nat2Z.id.
    rewrite nth_error_app2 by lia. rewrite Nat.sub_diag. simpl.
    destruct (loop_body output_lang string_width (char_to_int b) st)
      as [st'|u]; [|reflexivity].
    specialize (IH (pre ++ [b]) st').
    rewrite <- app_assoc in IH. simpl in IH.
    rewrite len_app in IH. change (len [b]) with 1 in IH. exact IH.
Qed.

(** The formatter reads the first [*array_size] bytes of the buffer and
    nothing beyond: what follows them has no influence on the result,
    for every width. *)
Theorem reads_only_array_size (verbose_flag interactive_flag : bool)
  (buf : list ascii) (n : nat) (output_lang string_width : Z) :
  (n <= List.length buf)%nat ->
  output_hex_escaped_string verbose_flag interactive_flag buf (Z.of_nat n)
    output_lang string_width
  = output_hex_escaped_string verbose_flag interactive_flag (firstn n buf)
      (Z.of_nat n) output_lang string_width.
Proof.
  intros Hn. unfold output_hex_escaped_string. rewrite Nat2Z.id.
  assert (Hlen : List.length (firstn n buf) = n)
    by (rewrite length_firstn; lia).
  pose proof (scan_feed_within [] (firstn n buf) (skipn n buf)) as H1.
  pose proof (scan_feed_within [] (firstn n buf) []) as H2.
  simpl app in H1, H2. rewrite firstn_skipn in H1. rewrite app_nil_r in H2.
  rewrite Hlen in H1, H2. change (len []) with 0 in H1, H2.
  rewrite H1, H2. reflexivity.
Qed.

Lemma reads_only_array_size_witness :
  (4 <= List.length (text "4142zz43"))%nat
  /\ output_hex_escaped_string true false (text "4142zz43") (Z.of_nat 4) 2 1
     = output_hex_escaped_string true false (firstn 4 (text "4142zz43"))
         (Z.of_nat 4) 2 1.
Proof.
  split; [vm_compute; lia|].
  apply (reads_only_array_size true false (text "4142zz43") 4 2 1).
  vm_compute. lia.
Defined.

(** ** Quote characters *)

Lemma count_quotes_app (l1 l2 : list ascii) :
  count_quotes (l1 ++ l2) = (count_quotes l1 + count_quotes l2)%nat.
Proof. apply count_occ_app. Qed.

Lemma count_quotes_digit (d : ascii) :
  is_hex_digit d = true -> count_quotes [d] = 0%nat.
Proof.
  intros Hd. destruct (hex_digit_plain d Hd) as (_ & H2 & _).
  unfold count_quotes. apply count_occ_not_In. intros [E|[]].
  subst d. discriminate H2.
Qed.

Lemma marker_quotes (output_lang : Z) :
  output_lang = 1 \/ output_lang = 2 ->
  count_quotes (wrap_marker output_lang true) = 1%nat
  /\ count_quotes (wrap_marker output_lang false) = 2%nat.
Proof. intros [->| ->]; split; reflexivity. Qed.

Lemma literal_quotes_even (due : Z -> bool) (output_lang : Z)
  (ds : list ascii) :
  output_lang = 1 \/ output_lang = 2 ->
  forallb is_hex_digit ds = true ->
  forall k, 0 < k ->
  exists m, count_quotes (literal due output_lang k ds) = (2 * m)%nat.
Proof.
  intros Hlang. induction ds as [|d t IH]; intros Hds k Hk.
  - exists 0%nat. reflexivity.
  - simpl in Hds. apply andb_prop in Hds. destruct Hds as [Hd Ht].
    destruct (IH Ht (k + 1)) as [m Hm]; [lia|].
    cbn [literal]. rewrite count_quotes_app, Hm.
    destruct (Z.eqb_spec k 0) as [E|_]; [lia|].
    destruct (Z.even k).
    + rewrite !count_quotes_app, (count_quotes_digit d Hd).
      change (count_quotes escape_prefix) with 0%nat.
      destruct (due k).
      * rewrite (proj2 (marker_quotes output_lang Hlang)).
        exists (S m). lia.
      * exists m. reflexivity.
    + rewrite (count_quotes_digit d Hd). exists m. reflexivity.
Qed.

Lemma accepted_hex (buf : list ascii) :
  forallb is_hex_digit (accepted buf) = true.
Proof.
  apply forallb_forall. intros b Hb. apply filter_In in Hb. apply Hb.
Qed.

(** In the C and Python syntaxes, with a wrap width other than 0 and
    at least one valid hex digit in the input, the output (verbose flag
    off) holds an even number of quote characters: every segment that is
    opened is closed. *)
Theorem quotes_balanced_when_wrapping (interactive_flag : bool)
  (buf : list ascii) (output_lang string_width : Z) :
  output_lang = 1 \/ output_lang = 2 ->
  string_width <> 0 ->
  in_int (string_width * 2) = true ->
  accepted buf <> [] ->
  exists text_out : list ascii,
    output_hex_escaped_string false interactive_flag buf (len buf)
      output_lang string_width = Done text_out
    /\ Nat.even (count_quotes text_out) = true.
Proof.
  intros Hlang Hw Hint Hne. eexists. split.
  - apply formatter_spec, Hint.
  - pose proof (accepted_hex buf) as Hhex.
    destruct (accepted buf) as [|d t]; [contradiction Hne; reflexivity|].
    simpl in Hhex. apply andb_prop in Hhex. destruct Hhex as [Hd Ht].
    destruct (literal_quotes_even (due_in_code string_width) output_lang t
                Hlang Ht 1) as [m Hm]; [lia|].
    assert (Hdue : due_in_code string_width 0 = true).
    { unfold due_in_code. destruct (Z.eqb_spec string_width 0); [lia|].
      rewrite Z.rem_0_l by lia. reflexivity. }
    cbn [literal Z.even]. rewrite Hdue. change (0 =? 0) with true.
    change (0 + 1) with 1.
    rewrite !count_quotes_app, Hm, (count_quotes_digit d Hd).
    rewrite (proj1 (marker_quotes output_lang Hlang)).
    change (count_quotes escape_prefix) with 0%nat.
    replace (count_quotes (lead interactive_flag)) with 0%nat
      by (destruct interactive_flag; reflexivity).
    replace (count_quotes (closing output_lang)) with 1%nat
      by (destruct Hlang as [->| ->]; reflexivity).
    change (declaration false output_lang) with (@nil ascii).
    change (warning false (count_invalid buf)) with (@nil ascii).
    change (count_quotes []) with 0%nat.
    replace (0 + (0 + (1 + (0 + 0) + 2 * m + (1 + 0))))%nat
      with (2 * (m + 1))%nat by lia.
    rewrite Nat.even_mul. reflexivity.
Qed.

Lemma quotes_balanced_when_wrapping_witness :
  (2 = 1 \/ 2 = 2) /\ 3 <> 0 /\ in_int (3 * 2) = true
  /\ accepted (text "41 42 43 44 45") <> []
  /\ exists text_out : list ascii,
       output_hex_escaped_string false true (text "41 42 43 44 45")
         (len (text "41 42 43 44 45")) 2 3 = Done text_out
       /\ Nat.even (count_quotes text_out) = true.
Proof.
  assert (H1 : 2 = 1 \/ 2 = 2) by (right; reflexivity).
  assert (H2 : 3 <> 0) by discriminate.
  assert (H3 : accepted (text "41 42 43 44 45") <> [])
    by (vm_compute; discriminate).
  split; [exact H1|]. split; [exact H2|]. split; [reflexivity|].
  split; [exact H3|].
  exact (quotes_balanced_when_wrapping true (text "41 42 43 44 45") 2 3
           H1 H2 eq_refl H3).
Defined.

(** In the C and Python syntaxes with wrap width 0 (verbose flag off)
    the output holds exactly one quote character, the closing one, for
    every input: no opening quote is ever written. *)
Theorem single_quote_without_width (interactive_flag : bool)
  (buf : list ascii) (output_lang : Z) :
  output_lang = 1 \/ output_lang = 2 ->
  exists text_out : list ascii,
    output_hex_escaped_string false interactive_flag buf (len buf)
      output_lang 0 = Done text_out
    /\ count_quotes text_out = 1%nat.
Proof.
  intros Hlang. eexists. split; [apply formatter_width_zero|].
  rewrite !count_quotes_app.
  replace (count_quotes (unbroken (accepted buf))) with 0%nat.
  - replace (count_quotes (lead interactive_flag)) with 0%nat
      by (destruct interactive_flag; reflexivity).
    destruct Hlang as [->| ->]; reflexivity.
  - symmetry. apply count_occ_not_In. intros Hin.
    pose proof (unbroken_plain buf) as Hall.
    rewrite Forall_forall in Hall. apply (Hall dquote Hin). reflexivity.
Qed.

Lemma single_quote_without_width_witness :
  (1 = 1 \/ 1 = 2)
  /\ exists text_out : list ascii,
       output_hex_escaped_string false false (text "4142")
         (len (text "4142")) 1 0 = Done text_out
       /\ count_quotes text_out = 1%nat.
Proof.
  assert (H : 1 = 1 \/ 1 = 2) by (left; reflexivity).
  split; [exact H|].
  exact (single_quote_without_width false (text "4142") 1 H).
Defined.

(* ================================================================= *)
(** * Further properties of the collector and of the actions *)

Lemma skipped_not_hex (b : ascii) :
  is_skipped b = true -> is_hex_digit b = false.
Proof.
  intros Hs. destruct (is_hex_digit b) eqn:Hh; [|reflexivity].
  rewrite (hex_digit_not_skipped b Hh) in Hs. discriminate Hs.
Qed.

Lemma feed_skipped (output_lang string_width : Z) (tail : list ascii)
  (st : state) :
  forallb is_skipped tail = true ->
  feed output_lang string_width tail st = Done st.
Proof.
  revert st. induction tail as [|b t IH]; intros st H; [reflexivity|].
  simpl in H. apply andb_prop in H. destruct H as [Hb Ht].
  simpl feed. rewrite loop_body_skipped by exact Hb. apply IH, Ht.
Qed.

(** Bytes that are skipped silently, put after the input and counted in
    the length, change nothing, for every width. *)
Lemma formatter_skipped_tail (verbose_flag interactive_flag : bool)
  (stored tail : list ascii) (output_lang string_width : Z) :
  forallb is_skipped tail = true ->
  output_hex_escaped_string verbose_flag interactive_flag (stored ++ tail)
    (len (stored ++ tail)) output_lang string_width
  = output_hex_escaped_string verbose_flag interactive_flag stored
      (len stored) output_lang string_width.
Proof.
  intros Htail. unfold output_hex_escaped_string.
  rewrite !scan_whole, feed_app.
  destruct (feed output_lang string_width stored _) as [st'|u];
    [|reflexivity].
  rewrite feed_skipped by exact Htail. reflexivity.
Qed.

Lemma read_stdin_spec (interactive_flag : bool) (input : list ascii)
  (s : streams) :
  len input + 1 <= INT_MAX ->
  read_and_store_char_input interactive_flag input 1 s
  = Ret (mkBlock (map Some input ++ [None]) [], len input + 1)
        (mkStreams (stdout s ++ prompt interactive_flag) (stderr s)).
Proof.
  intros Hlen.
  unfold read_and_store_char_input, bind, when, prompt, line.
  pose proof (store_loop_spec input [] Hlen) as Hloop.
  cbn [app map] in Hloop. change (len []) with 0 in Hloop.
  change (allocate_dynamic_memory 1) with (mkBlock [None] []).
  cbn [Z.add] in Hloop.
  destruct interactive_flag; cbn [print_out ret]; rewrite Hloop;
    unfold ret; rewrite ?app_nil_r; destruct s; reflexivity.
Qed.

Lemma read_file_1_spec (fs : list ascii -> option (list ascii))
  (filename file : list ascii) (s : streams) :
  fs filename = Some file -> len file + 1 <= INT_MAX ->
  read_from_file fs filename 1 1 s
  = Ret (Some (mkBlock (map Some file ++ [None]) []), len file + 1) s.
Proof.
  intros Hfs Hlen. unfold read_from_file. rewrite Hfs.
  cbn [Z.leb Z.compare].
  pose proof (file_loop_1_spec file [] Hlen) as Hloop.
  cbn [app map] in Hloop. change (len []) with 0 in Hloop.
  cbn [Z.add] in Hloop.
  change (allocate_dynamic_memory 1) with (mkBlock [None] []).
  rewrite Hloop. reflexivity.
Qed.

Lemma read_file_2_spec (fs : list ascii -> option (list ascii))
  (filename file : list ascii) (s : streams) :
  fs filename = Some file -> 2 * len file + 2 <= INT_MAX ->
  read_from_file fs filename 1 2 s
  = Ret (Some (mkBlock (map Some (dump file) ++ [None; None]) []),
         len (dump file) + 2) s.
Proof.
  intros Hfs Hlen. unfold read_from_file. rewrite Hfs.
  cbn [Z.leb Z.compare].
  assert (Hlen' : len (@nil ascii) + 2 * len file + 2 <= INT_MAX)
    by (change (len []) with 0; lia).
  pose proof (file_loop_2_spec file [] Hlen') as Hloop.
  cbn [app map] in Hloop. change (len []) with 0 in Hloop.
  cbn [Z.add] in Hloop.
  change (in_int (1 + 1)) with true. cbn [negb].
  change (allocate_dynamic_memory (1 * 2)) with (mkBlock [None; None] []).
  change (1 + 1) with 2.
  rewrite Hloop. reflexivity.
Qed.

Lemma width_notice_out (v : vars) (s : streams) :
  width_notice v s
  = Ret tt (mkStreams
              (stdout s ++
               if doLimitBinaryStringWidth v
               then text "[+] Binary string width is limited to "
                    ++ fmt_d (string_width v) ++ line " bytes."
               else [])
              (stderr s)).
Proof.
  unfold width_notice, when, print_out, ret.
  destruct (doLimitBinaryStringWidth v); [reflexivity|].
  rewrite app_nil_r. destruct s; reflexivity.
Qed.

Lemma call_formatter_out (junk : Z -> ascii) (v : vars) (p : block)
  (array_size : Z) (before : list ascii) :
  (call_formatter junk v (Some p) array_size ;;; exit EXIT_SUCCESS)
    (mkStreams before [])
  = formatted before
      (output_hex_escaped_string (verbose_flag v) (interactive_flag v)
         (content junk p) array_size (output_lang v) (string_width v)).
Proof.
  unfold call_formatter, bind, formatted.
  destruct (output_hex_escaped_string _ _ _ _ _ _); reflexivity.
Qed.

Section Actions.

Variable stdin_content : list ascii.
Variable fs : list ascii -> option (list ascii).
Variable junk : Z -> ascii.

Lemma hex_escape_banner_out (v : vars) :
  doOutputHexEscapedString v = true ->
  when (verbose_flag v)
    (print_out (line "[*] Convert hexadecimal input to an escaped binary string.") ;;;
     width_notice v) (mkStreams [] [])
  = Ret tt (mkStreams (hex_escape_banner v) []).
Proof.
  intros Hx. unfold hex_escape_banner, when. rewrite Hx. simpl andb.
  destruct (verbose_flag v); [|reflexivity].
  unfold bind, print_out. rewrite width_notice_out. reflexivity.
Qed.

(** Hex-escape from standard input: when the cell after the stored
    characters holds a byte that the formatter skips, the process
    writes the verbose banner, the interactive prompt and then exactly
    what the formatter gives for the characters read with their true
    number, and ends with status 0. *)
Theorem hex_escape_of_stdin (v : vars) :
  doOutputHexEscapedString v = true ->
  doHexDumpFile v = false -> doReadFromFile v = false ->
  len stdin_content + 1 <= INT_MAX ->
  is_skipped (junk (len stdin_content)) = true ->
  hex_escape_action stdin_content fs junk v (mkStreams [] [])
  = formatted (hex_escape_banner v ++ prompt (interactive_flag v))
      (output_hex_escaped_string (verbose_flag v) (interactive_flag v)
         stdin_content (len stdin_content)
         (output_lang v) (string_width v)).
Proof.
  intros Hx HD Hf Hlen Hjunk. unfold hex_escape_action.
  unfold bind at 1. rewrite (hex_escape_banner_out v Hx).
  rewrite HD, Hf. unfold bind at 1. unfold bind at 1.
  rewrite read_stdin_spec by exact Hlen. unfold ret. cbn [fst snd stdout stderr].
  rewrite call_formatter_out, content_stored. cbn [content_from].
  replace (len stdin_content + 1)
    with (len (stdin_content ++ [junk (len stdin_content)]))
    by (rewrite len_app; reflexivity).
  rewrite formatter_skipped_tail; [reflexivity|].
  simpl. rewrite Hjunk. reflexivity.
Qed.

(** Hex-escape of a file given with [-f]: the same, without a prompt. *)
Theorem hex_escape_of_file (v : vars) (file : list ascii) :
  doOutputHexEscapedString v = true ->
  doHexDumpFile v = false -> doReadFromFile v = true ->
  fs (fread_filename v) = Some file ->
  len file + 1 <= INT_MAX ->
  is_skipped (junk (len file)) = true ->
  hex_escape_action stdin_content fs junk v (mkStreams [] [])
  = formatted (hex_escape_banner v)
      (output_hex_escaped_string (verbose_flag v) (interactive_flag v)
         file (len file) (output_lang v) (string_width v)).
Proof.
  intros Hx HD Hf Hfs Hlen Hjunk. unfold hex_escape_action.
  unfold bind at 1. rewrite (hex_escape_banner_out v Hx).
  rewrite HD, Hf. unfold bind at 1.
  rewrite (read_file_1_spec fs _ file _ Hfs Hlen). cbn [fst snd].
  rewrite call_formatter_out, content_stored. cbn [content_from].
  replace (len file + 1) with (len (file ++ [junk (len file)]))
    by (rewrite len_app; reflexivity).
  rewrite formatter_skipped_tail; [reflexivity|].
  simpl. rewrite Hjunk. reflexivity.
Qed.

End Actions.

Lemma hex_escape_of_stdin_witness :
  let v := mkVars true true true false false false true [] 1 (text "c") 1 in
  doOutputHexEscapedString v = true
  /\ doHexDumpFile v = false /\ doReadFromFile v = false
  /\ len (text "41z42") + 1 <= INT_MAX
  /\ is_skipped ((fun _ : Z => NUL) (len (text "41z42"))) = true
  /\ hex_escape_action (text "41z42") (fun _ => None) (fun _ => NUL) v
       (mkStreams [] [])
     = formatted (hex_escape_banner v ++ prompt (interactive_flag v))
         (output_hex_escaped_string (verbose_flag v) (interactive_flag v)
            (text "41z42") (len (text "41z42"))
            (output_lang v) (string_width v)).
Proof.
  intros v.
  assert (H : len (text "41z42") + 1 <= INT_MAX) by (vm_compute; discriminate).
  split; [reflexivity|]. split; [reflexivity|]. split; [reflexivity|].
  split; [exact H|]. split; [reflexivity|].
  exact (hex_escape_of_stdin (text "41z42") (fun _ => None) (fun _ => NUL) v
           eq_refl eq_refl eq_refl H eq_refl).
Defined.

Lemma hex_escape_of_file_witness :
  let v := mkVars false false true false false true false
             (text "in.hex") 2 (text "python") 0 in
  let fs := fun _ : list ascii => Some (text "4a4B") in
  doOutputHexEscapedString v = true
  /\ doHexDumpFile v = false /\ doReadFromFile v = true
  /\ fs (fread_filename v) = Some (text "4a4B")
  /\ len (text "4a4B") + 1 <= INT_MAX
  /\ is_skipped ((fun _ : Z => nl) (len (text "4a4B"))) = true
  /\ hex_escape_action [] fs (fun _ => nl) v (mkStreams [] [])
     = formatted (hex_escape_banner v)
         (output_hex_escaped_string (verbose_flag v) (interactive_flag v)
            (text "4a4B") (len (text "4a4B"))
            (output_lang v) (string_width v)).
Proof.
  intros v fs.
  assert (H : len (text "4a4B") + 1 <= INT_MAX) by (vm_compute; discriminate).
  split; [reflexivity|]. split; [reflexivity|]. split; [reflexivity|].
  split; [reflexivity|]. split; [exact H|]. split; [reflexivity|].
  exact (hex_escape_of_file [] fs (fun _ => nl) v (text "4a4B")
           eq_refl eq_refl eq_refl eq_refl H eq_refl).
Defined.

(** ** The hexadecimal expansion of a file *)

Lemma two_hex_digits (b : ascii) :
  forallb is_hex_digit (two_hex (byte_value b)) = true.
Proof. each_byte b. Qed.

Lemma two_hex_value (b : ascii) :
  hex_value (two_hex (byte_value b)) = byte_value b.
Proof. each_byte b. Qed.

Lemma dump_cons (b : ascii) (t : list ascii) :
  dump (b :: t)
  = lower_hex_digit (byte_value b / 16)
    :: lower_hex_digit (byte_value b mod 16) :: dump t.
Proof. unfold dump. cbn [flat_map]. rewrite fmt_02x_byte. reflexivity. Qed.

Lemma dump_hex (file : list ascii) :
  forallb is_hex_digit (dump file) = true.
Proof.
  induction file as [|b t IH]; [reflexivity|].
  rewrite dump_cons. pose proof (two_hex_digits b) as H.
  unfold two_hex in H. cbn [forallb] in H |- *.
  rewrite andb_true_r in H. apply andb_prop in H. destruct H as [H1 H2].
  rewrite H1, H2, IH. reflexivity.
Qed.

Lemma len_dump (file : list ascii) : len (dump file) = 2 * len file.
Proof.
  induction file as [|b t IH]; [reflexivity|].
  rewrite dump_cons, !len_cons, IH. lia.
Qed.

Lemma unbroken_dump (file : list ascii) :
  unbroken (dump file) = escaped_bytes file.
Proof.
  unfold unbroken, escaped_bytes.
  induction file as [|b t IH]; [reflexivity|].
  rewrite dump_cons. cbn [byte_groups flat_map]. rewrite IH. reflexivity.
Qed.

(** The dump of a file can be decoded: it holds two lowercase
    hexadecimal digits per byte, and read two by two its digits have
    the values of the bytes of the file, in order. *)
Theorem dump_decodes (file : list ascii) :
  len (dump file) = 2 * len file
  /\ forallb is_hex_digit (dump file) = true
  /\ Forall (fun d => In d (text "0123456789abcdef")) (dump file)
  /\ map hex_value (byte_groups (dump file)) = map byte_value file.
Proof.
  split; [apply len_dump|]. split; [apply dump_hex|]. split.
  - induction file as [|b t IH]; [constructor|].
    rewrite dump_cons. constructor; [|constructor; [|exact IH]];
      clear; each_byte b; tauto.
  - induction file as [|b t IH]; [reflexivity|].
    rewrite dump_cons. cbn [byte_groups map]. rewrite IH.
    f_equal. apply two_hex_value.
Qed.

Section FileActions.

Variable stdin_content : list ascii.
Variable fs : list ascii -> option (list ascii).
Variable junk : Z -> ascii.

(** Hex-escape of a file given with [-D] (hex expansion, then the
    formatter): when the two cells after the stored digits hold bytes
    that the formatter skips, the process writes the verbose banner and
    the literal of the bytes of the file, one escape per byte in file
    order, never a diagnostic line, and ends with status 0. *)
Theorem hex_escape_of_dumped_file (v : vars) (file : list ascii) :
  doOutputHexEscapedString v = true -> doHexDumpFile v = true ->
  fs (fread_filename v) = Some file ->
  2 * len file + 2 <= INT_MAX ->
  is_skipped (junk (2 * len file)) = true ->
  is_skipped (junk (2 * len file + 1)) = true ->
  in_int (string_width v * 2) = true ->
  hex_escape_action stdin_content fs junk v (mkStreams [] [])
  = Exit EXIT_SUCCESS
      (mkStreams
         (hex_escape_banner v ++ lead (interactive_flag v)
          ++ declaration (verbose_flag v) (output_lang v)
          ++ (if string_width v =? 0 then escaped_bytes file
              else literal (due_in_code (string_width v)) (output_lang v) 0
                     (dump file))
          ++ closing (output_lang v)) []).
Proof.
  intros Hx HD Hfs Hlen Hj1 Hj2 Hw. unfold hex_escape_action.
  unfold bind at 1. rewrite (hex_escape_banner_out v Hx).
  rewrite HD. unfold bind at 1.
  rewrite (read_file_2_spec fs _ file _ Hfs Hlen). cbn [fst snd].
  rewrite call_formatter_out, content_stored. cbn [content_from].
  rewrite len_dump.
  replace (2 * len file + 2)
    with (len (dump file ++ [junk (2 * len file); junk (2 * len file + 1)]))
    by (rewrite len_app, len_dump; reflexivity).
  rewrite formatter_skipped_tail
    by (cbn [forallb]; rewrite Hj1, Hj2; reflexivity).
  rewrite formatter_spec by exact Hw.
  rewrite (accepted_all _ (dump_hex file)),
          (count_invalid_all _ (dump_hex file)).
  replace (warning (verbose_flag v) 0) with (@nil ascii)
    by (unfold warning; rewrite andb_false_r; reflexivity).
  unfold formatted. rewrite app_nil_r.
  destruct (Z.eqb_spec (string_width v) 0) as [E|_]; [|reflexivity].
  rewrite E.
  pose proof (literal_unbroken (due_in_code 0) (output_lang v) (dump file)
                (fun k => eq_refl) 0) as H.
  change (2 * 0) with 0 in H. rewrite H, unbroken_dump. reflexivity.
Qed.

(** The dump-file action on a file that can be opened writes the dump
    and nothing else (no newline after it), whatever the verbose and
    interactive flags, the width and the syntax, and ends with status
    0; an empty file gives an empty output. *)
Theorem dump_of_readable_file (inv : invocation) (v : vars)
  (file : list ascii) :
  (optind inv <? argc inv) || (argc inv =? 1) = false ->
  doOutputHexEscapedString v = false -> doHexDumpFile v = true ->
  fs (fread_filename v) = Some file ->
  after_options stdin_content fs junk inv v (mkStreams [] [])
  = Exit EXIT_SUCCESS (mkStreams (dump file) []).
Proof.
  intros Hargs Hx HD Hfs. unfold after_options.
  rewrite Hargs, Hx, HD. unfold dump_file_action, bind, read_from_file.
  rewrite Hfs. reflexivity.
Qed.

(** The gen-badchar action, for a width whose double is an [int]:
    the process writes the verbose banner and the literal of the bytes
    01 to ff, never a diagnostic line, and ends with status 0, whatever
    standard input, the files and the heap hold. *)
Theorem gen_badchar_output (v : vars) :
  in_int (string_width v * 2) = true ->
  gen_badchar_action junk v (mkStreams [] [])
  = Exit EXIT_SUCCESS
      (mkStreams
         (badchar_banner v ++ lead (interactive_flag v)
          ++ declaration (verbose_flag v) (output_lang v)
          ++ literal (due_in_code (string_width v)) (output_lang v) 0
               badchars
          ++ closing (output_lang v)) []).
Proof.
  intros Hw. unfold gen_badchar_action.
  assert (Hb : when (verbose_flag v)
                 (print_out (line "[*] Generating bad character binary string.") ;;;
                  width_notice v) (mkStreams [] [])
               = Ret tt (mkStreams (badchar_banner v) [])).
  { unfold badchar_banner, when. destruct (verbose_flag v); [|reflexivity].
    unfold bind, print_out. rewrite width_notice_out. reflexivity. }
  unfold bind at 1. rewrite Hb. rewrite call_formatter_out.
  unfold content. rewrite badchar_cells, content_written.
  fold badchars. change BADCHAR_HEX_SEQLEN with (len badchars).
  rewrite formatter_spec by exact Hw.
  assert (Hhex : forallb is_hex_digit badchars = true)
    by (vm_compute; reflexivity).
  rewrite (accepted_all _ Hhex), (count_invalid_all _ Hhex).
  replace (warning (verbose_flag v) 0) with (@nil ascii)
    by (unfold warning; rewrite andb_false_r; reflexivity).
  unfold formatted. rewrite app_nil_r. reflexivity.
Qed.

End FileActions.

Lemma hex_escape_of_dumped_file_witness :
  let v := mkVars true false true false true false false
             (text "a.bin") 0 [] 0 in
  let fs := fun _ : list ascii => Some (text "AB") in
  doOutputHexEscapedString v = true /\ doHexDumpFile v = true
  /\ fs (fread_filename v) = Some (text "AB")
  /\ 2 * len (text "AB") + 2 <= INT_MAX
  /\ is_skipped ((fun _ : Z => NUL) (2 * len (text "AB"))) = true
  /\ is_skipped ((fun _ : Z => NUL) (2 * len (text "AB") + 1)) = true
  /\ in_int (string_width v * 2) = true
  /\ hex_escape_action [] fs (fun _ => NUL) v (mkStreams [] [])
     = Exit EXIT_SUCCESS
         (mkStreams
            (hex_escape_banner v ++ lead (interactive_flag v)
             ++ declaration (verbose_flag v) (output_lang v)
             ++ (if string_width v =? 0 then escaped_bytes (text "AB")
                 else literal (due_in_code (string_width v)) (output_lang v)
                        0 (dump (text "AB")))
             ++ closing (output_lang v)) []).
Proof.
  intros v fs.
  assert (H : 2 * len (text "AB") + 2 <= INT_MAX) by (vm_compute; discriminate).
  split; [reflexivity|]. split; [reflexivity|]. split; [reflexivity|].
  split; [exact H|]. split; [reflexivity|]. split; [reflexivity|].
  split; [reflexivity|].
  exact (hex_escape_of_dumped_file [] fs (fun _ => NUL) v (text "AB")
           eq_refl eq_refl eq_refl H eq_refl eq_refl eq_refl).
Defined.

Lemma dump_of_readable_file_witness :
  let v := mkVars true true false true true false true
             (text "a.bin") 2 [] 4 in
  let inv := mkInvocation 3 (text "bstrings") [] 3 in
  let fs := fun _ : list ascii => Some (text "AB") in
  (optind inv <? argc inv) || (argc inv =? 1) = false
  /\ doOutputHexEscapedString v = false /\ doHexDumpFile v = true
  /\ fs (fread_filename v) = Some (text "AB")
  /\ after_options [] fs (fun _ => NUL) inv v (mkStreams [] [])
     = Exit EXIT_SUCCESS (mkStreams (dump (text "AB")) []).
Proof.
  intros v inv fs.
  split; [reflexivity|]. split; [reflexivity|]. split; [reflexivity|].
  split; [reflexivity|].
  exact (dump_of_readable_file [] fs (fun _ => NUL) inv v (text "AB")
           eq_refl eq_refl eq_refl eq_refl).
Defined.

Lemma gen_badchar_output_witness :
  let v := mkVars true false false true false false true [] 1 (text "c") 16 in
  in_int (string_width v * 2) = true
  /\ gen_badchar_action (fun _ => NUL) v (mkStreams [] [])
     = Exit EXIT_SUCCESS
         (mkStreams
            (badchar_banner v ++ lead (interactive_flag v)
             ++ declaration (verbose_flag v) (output_lang v)
             ++ literal (due_in_code (string_width v)) (output_lang v) 0
                  badchars
             ++ closing (output_lang v)) []).
Proof.
  intros v. split; [reflexivity|].
  exact (gen_badchar_output (fun _ => NUL) v eq_refl).
Defined.

(* ================================================================= *)
(** * Further properties of [main] *)

Section OptionLoop.

Variables program_version program_build_time : list ascii.
Variable program_build : option (list ascii).
Variable atoi : list ascii -> Z.
Variable stdin_content : list ascii.
Variable fs : list ascii -> option (list ascii).
Variable junk : Z -> ascii.

Local Abbreviation switch :=
  (option_switch program_version program_build_time program_build atoi).
Local Abbreviation loop :=
  (option_loop program_version program_build_time program_build atoi).
Local Abbreviation run :=
  (run_main program_version program_build_time program_build atoi
     stdin_content fs junk).

Ltac split_opt opt :=
  destruct opt as [|p|p]; cbn [option_switch];
  repeat match goal with
         | |- context [match ?q with xI _ => _ | xO _ => _ | xH => _ end] =>
             is_var q; destruct q
         end.

(** One pass through the switch either goes on with the streams as
    they were or ends the process with status 0 or 1 after writing to
    standard error only. *)
Lemma option_switch_cases (program_name : list ascii) (opt : Z)
  (optarg : option (list ascii)) (optopt : Z) (v : vars) (s : streams) :
  (exists v', switch program_name opt optarg optopt v s = Ret v' s)
  \/ (exists n err,
         switch program_name opt optarg optopt v s
         = Exit n (mkStreams (stdout s) (stderr s ++ err))
         /\ (n = EXIT_SUCCESS \/ n = EXIT_FAILURE) /\ err <> []).
Proof.
  split_opt opt;
    try (left; eexists; reflexivity);
    right; unfold bind, print_err, exit; cbn [stdout stderr];
    do 2 eexists; (split; [reflexivity|]);
    (split; [(left; reflexivity) || (right; reflexivity)|]).
  all: try (intros E; discriminate E).
  all: intros E; apply app_eq_nil in E; destruct E as [_ E]; discriminate E.
Qed.

Lemma option_loop_cons (program_name : list ascii) (r : getopt_return)
  (rest : list getopt_return) (v : vars) (s : streams) :
  loop program_name (r :: rest) v s
  = match r with
    | FlagStored flag val => loop program_name rest (set_flag flag val v) s
    | Returned opt optarg optopt =>
        match switch program_name opt optarg optopt v s with
        | Ret v' s' => loop program_name rest v' s'
        | Exit n s' => Exit n s'
        | Fault u s' => Fault u s'
        end
    end.
Proof. destruct r; reflexivity. Qed.

Lemma option_loop_cases (program_name : list ascii)
  (rs : list getopt_return) (v : vars) (s : streams) :
  (exists v', loop program_name rs v s = Ret v' s)
  \/ (exists n err,
         loop program_name rs v s
         = Exit n (mkStreams (stdout s) (stderr s ++ err))
         /\ (n = EXIT_SUCCESS \/ n = EXIT_FAILURE) /\ err <> []).
Proof.
  revert v. induction rs as [|r rest IH]; intros v.
  - left. exists v. reflexivity.
  - rewrite option_loop_cons. destruct r as [flag val|opt optarg optopt].
    + apply IH.
    + destruct (option_switch_cases program_name opt optarg optopt v s)
        as [[v' Hv']|(n & err & Hx & Hn & Herr)].
      * rewrite Hv'. apply IH.
      * rewrite Hx. right. exists n, err. repeat split; assumption.
Qed.

(** The option loop never writes to standard output: when it returns,
    both streams are as it found them; when it ends the process, the
    status is 0 or 1 and a diagnostic, not empty, has been added to
    standard error.  ([atoi] is taken as a function of its argument:
    what it does on a number outside [int] is not part of this
    statement.) *)
Theorem option_loop_silent_on_stdout (program_name : list ascii)
  (rs : list getopt_return) (v : vars) (s : streams) :
  match loop program_name rs v s with
  | Ret _ s' => s' = s
  | Exit n s' =>
      stdout s' = stdout s
      /\ (n = EXIT_SUCCESS \/ n = EXIT_FAILURE)
      /\ exists err, err <> [] /\ stderr s' = stderr s ++ err
  | Fault _ s' => stdout s' = stdout s
  end.
Proof.
  revert v. induction rs as [|r rest IH]; intros v.
  - reflexivity.
  - rewrite option_loop_cons. destruct r as [flag val|opt optarg optopt].
    + apply IH.
    + destruct (option_switch_cases program_name opt optarg optopt v s)
        as [[v' Hv']|(n & err & Hx & Hn & Herr)].
      * rewrite Hv'. apply IH.
      * rewrite Hx. cbn [stdout stderr]. split; [reflexivity|].
        split; [exact Hn|]. exists err. split; [exact Herr | reflexivity].
Qed.

Lemma option_switch_lang (program_name : list ascii) (opt : Z)
  (optarg : option (list ascii)) (optopt : Z) (v v' : vars) (s s' : streams) :
  switch program_name opt optarg optopt v s = Ret v' s' ->
  output_lang v = 0 \/ output_lang v = 1 \/ output_lang v = 2 ->
  output_lang v' = 0 \/ output_lang v' = 1 \/ output_lang v' = 2.
Proof.
  intros Hsw Hv. revert Hsw. split_opt opt;
    unfold ret, bind, print_err, exit; intros Hsw;
    try discriminate Hsw; injection Hsw as <- _; cbn [output_lang];
    try exact Hv; try (destruct flag; exact Hv).
  match goal with
  | |- context [if list_ascii_eqb ?x ?c then 1 else _] =>
      destruct (list_ascii_eqb x c); [right; left; reflexivity|]
  end.
  match goal with
  | |- context [if list_ascii_eqb ?x ?c then 2 else _] =>
      destruct (list_ascii_eqb x c); [right; right; reflexivity | exact Hv]
  end.
Qed.

(** Whatever options are given, when the option loop returns, the
    output language is one of the three codes 0 (plain), 1 (C) and 2
    (Python): an unknown syntax name leaves the code as it was. *)
Theorem output_lang_is_a_syntax (program_name : list ascii)
  (g : indeterminate) (rs : list getopt_return) (v' : vars)
  (s s' : streams) :
  loop program_name rs (initial_vars g) s = Ret v' s' ->
  exists syn : syntax, output_lang v' = lang_code syn.
Proof.
  intros Hloop.
  assert (H : output_lang v' = 0 \/ output_lang v' = 1 \/ output_lang v' = 2).
  { assert (H0 : output_lang (initial_vars g) = 0 \/
                 output_lang (initial_vars g) = 1 \/
                 output_lang (initial_vars g) = 2) by (left; reflexivity).
    revert Hloop H0. generalize (initial_vars g) as v. revert s.
    induction rs as [|r rest IH]; intros s v Hloop Hv.
    - injection Hloop as <- _. exact Hv.
    - rewrite option_loop_cons in Hloop.
      destruct r as [flag val|opt optarg optopt].
      + apply (IH _ _ Hloop). destruct flag; exact Hv.
      + destruct (switch program_name opt optarg optopt v s)
          as [v1 s1| |] eqn:Hsw; try discriminate Hloop.
        apply (IH _ _ Hloop).
        exact (option_switch_lang _ _ _ _ _ _ _ _ Hsw Hv). }
  destruct H as [H|[H|H]];
    [exists Plain | exists CLiteral | exists PythonLiteral]; exact H.
Qed.

Lemma option_loop_continues (program_name : list ascii)
  (rs : list getopt_return) (v : vars) (s : streams) :
  forallb continues rs = true ->
  exists v', loop program_name rs v s = Ret v' s.
Proof.
  revert v. induction rs as [|r rest IH]; intros v Hc.
  - exists v. reflexivity.
  - simpl in Hc. apply andb_prop in Hc. destruct Hc as [Hr Hrest].
    rewrite option_loop_cons. destruct r as [flag val|opt optarg optopt].
    + apply IH, Hrest.
    + assert (Hsw : exists v1, switch program_name opt optarg optopt v s
                               = Ret v1 s).
      { cbn [continues existsb] in Hr.
        repeat match type of Hr with
               | (?a =? ?b) || _ = true =>
                   destruct (Z.eqb_spec a b) as [->|_];
                   [eexists; reflexivity | cbn [orb] in Hr]
               end.
        discriminate Hr. }
      destruct Hsw as [v1 Hv1]. rewrite Hv1. apply IH, Hrest.
Qed.

Lemma option_loop_app (program_name : list ascii)
  (rs1 rs2 : list getopt_return) (v : vars) (s : streams) :
  loop program_name (rs1 ++ rs2) v s
  = match loop program_name rs1 v s with
    | Ret v' s' => loop program_name rs2 v' s'
    | Exit n s' => Exit n s'
    | Fault u s' => Fault u s'
    end.
Proof.
  revert v s. induction rs1 as [|r rest IH]; intros v s; [reflexivity|].
  rewrite <- app_comm_cons, !option_loop_cons.
  destruct r as [flag val|opt optarg optopt]; [apply IH|].
  destruct (switch program_name opt optarg optopt v s); [apply IH| |];
    reflexivity.
Qed.

Lemma run_first_exit (g : indeterminate) (program_name : list ascii)
  (rs rest : list getopt_return) (r : getopt_return) (a o : Z)
  (n : Z) (err : list ascii) :
  forallb continues rs = true ->
  (forall v, loop program_name [r] v (mkStreams [] [])
             = Exit n (mkStreams [] err)) ->
  run g (mkInvocation a program_name (rs ++ r :: rest) o)
  = Exited n (mkStreams [] err).
Proof.
  intros Hc Hr. unfold run_main, main, bind. cbn [argv0 parsed].
  rewrite option_loop_app.
  destruct (option_loop_continues program_name rs (initial_vars g)
              (mkStreams [] []) Hc) as [v1 Hv1].
  rewrite Hv1. change (r :: rest) with ([r] ++ rest).
  rewrite option_loop_app, Hr. reflexivity.
Qed.

(** The help option and an option that [getopt_long] does not know
    (return values [h] and [?]): after any options that the loop
    accepts, the process writes the usage text to standard error,
    nothing to standard output, and ends with status 1; what follows on
    the command line is not looked at. *)
Theorem help_or_unknown_option (g : indeterminate)
  (program_name : list ascii) (rs rest : list getopt_return)
  (opt : Z) (optarg : option (list ascii)) (optopt a o : Z) :
  forallb continues rs = true ->
  opt = 104 \/ opt = 63 ->
  run g (mkInvocation a program_name
           (rs ++ Returned opt optarg optopt :: rest) o)
  = Exited EXIT_FAILURE (mkStreams [] (print_usage program_name)).
Proof.
  intros Hc Hopt. apply run_first_exit; [exact Hc|].
  intros v. destruct Hopt as [->| ->]; reflexivity.
Qed.

(** The version option (return value [@]): the version text goes to
    standard error and the process ends with status 0. *)
Theorem version_option (g : indeterminate)
  (program_name : list ascii) (rs rest : list getopt_return)
  (optarg : option (list ascii)) (optopt a o : Z) :
  forallb continues rs = true ->
  run g (mkInvocation a program_name
           (rs ++ Returned 64 optarg optopt :: rest) o)
  = Exited EXIT_SUCCESS
      (mkStreams [] (print_version program_version program_build_time
                       program_build program_name)).
Proof.
  intros Hc. apply run_first_exit; [exact Hc|]. intros v. reflexivity.
Qed.

(** An option whose argument is missing (return value [:]): the
    diagnostic names the program and the option character [optopt],
    goes to standard error, and the process ends with status 1. *)
Theorem missing_argument_option (g : indeterminate)
  (program_name : list ascii) (rs rest : list getopt_return)
  (optarg : option (list ascii)) (optopt a o : Z) :
  forallb continues rs = true ->
  run g (mkInvocation a program_name
           (rs ++ Returned 58 optarg optopt :: rest) o)
  = Exited EXIT_FAILURE
      (mkStreams [] (missing_argument program_name optopt)).
Proof.
  intros Hc. apply run_first_exit; [exact Hc|]. intros v. reflexivity.
Qed.

(** A command line that leaves a non-option argument, or that has no
    argument at all, gets the usage text on standard output and status
    0 even when actions were selected: no action is carried out. *)
Theorem stray_argument_suppresses_actions (g : indeterminate)
  (inv : invocation) :
  forallb continues (parsed inv) = true ->
  optind inv < argc inv \/ argc inv = 1 ->
  run g inv = Exited EXIT_SUCCESS (mkStreams (print_usage (argv0 inv)) []).
Proof.
  intros Hc Hargs. unfold run_main, main, bind.
  destruct (option_loop_continues (argv0 inv) (parsed inv) (initial_vars g)
              (mkStreams [] []) Hc) as [v' Hv'].
  rewrite Hv'. unfold after_options.
  assert (Hg : (optind inv <? argc inv) || (argc inv =? 1) = true).
  { apply orb_true_iff. destruct Hargs as [H|H];
      [left; apply Z.ltb_lt, H | right; apply Z.eqb_eq, H]. }
  rewrite Hg. reflexivity.
Qed.

(** A file name given with [-D] or [-f] is cut to its first 511
    characters ([MAX_FILENAME_LENGTH - 1]): the run is the one for the
    cut name. *)
Theorem file_name_is_cut (g : indeterminate) (program_name : list ascii)
  (rs rest : list getopt_return) (opt : Z) (path : list ascii)
  (optopt a o : Z) :
  opt = 68 \/ opt = 102 ->
  run g (mkInvocation a program_name
           (rs ++ Returned opt (Some path) optopt :: rest) o)
  = run g (mkInvocation a program_name
             (rs ++ Returned opt (Some (firstn 511 path)) optopt :: rest) o).
Proof.
  intros Hopt. unfold run_main, main, bind. cbn [argv0 parsed].
  rewrite !option_loop_app.
  destruct (loop program_name rs (initial_vars g) (mkStreams [] []))
    as [v1 s1| |]; try reflexivity.
  rewrite !option_loop_cons.
  assert (Hcut : snprintf_s MAX_FILENAME_LENGTH (firstn 511 path)
                 = snprintf_s MAX_FILENAME_LENGTH path).
  { unfold snprintf_s, MAX_FILENAME_LENGTH.
    change (Z.to_nat (512 - 1)) with 511%nat.
    rewrite firstn_firstn, Nat.min_id. reflexivity. }
  assert (Hsw : switch program_name opt (Some (firstn 511 path)) optopt v1 s1
                = switch program_name opt (Some path) optopt v1 s1).
  { destruct Hopt as [->| ->]; cbn [option_switch];
      rewrite Hcut; reflexivity. }
  rewrite Hsw. reflexivity.
Qed.

Lemma status_ok_bind {A B : Type} (P : B -> Prop) (c : proc A)
  (k : A -> proc B) (s : streams) :
  status_ok (fun _ => True) (c s) ->
  (forall a s', status_ok P (k a s')) ->
  status_ok P (bind c k s).
Proof.
  intros Hc Hk. unfold bind. destruct (c s); simpl in *; auto.
Qed.

Lemma status_ok_read_from_file (filename : list ascii)
  (array_size mode : Z) (s : streams) :
  status_ok (fun _ => True) (read_from_file fs filename array_size mode s).
Proof.
  unfold read_from_file. destruct (fs filename) as [file|].
  - destruct (1 <=? mode); [|exact I].
    match goal with
    | |- context [match ?i with Done _ => _ | Undef _ => _ end] =>
        destruct i as [[p n]|u]; [|exact I]
    end.
    destruct (file_loop mode file (p, n, 0)) as [[[p' n'] i']|u]; exact I.
  - right. reflexivity.
Qed.

Lemma status_ok_call_formatter (v : vars) (p : option block)
  (array_size : Z) (s : streams) :
  status_ok (fun _ => True) (call_formatter junk v p array_size s).
Proof.
  unfold call_formatter. destruct p as [p|]; [|exact I].
  destruct (output_hex_escaped_string _ _ _ _ _ _); exact I.
Qed.

Lemma status_ok_banner (v : vars) (t : list ascii) (s : streams) :
  status_ok (fun _ => True)
    (when (verbose_flag v) (print_out t ;;; width_notice v) s).
Proof.
  unfold when. destruct (verbose_flag v); [|exact I].
  unfold bind, print_out. rewrite width_notice_out. exact I.
Qed.

Lemma status_ok_after_options (inv : invocation) (v : vars) (s : streams) :
  status_ok (fun z => z = 0)
    (after_options stdin_content fs junk inv v s).
Proof.
  unfold after_options.
  destruct ((optind inv <? argc inv) || (argc inv =? 1)).
  { left. reflexivity. }
  destruct (doOutputHexEscapedString v).
  { unfold hex_escape_action.
    apply status_ok_bind; [apply status_ok_banner|]. intros _ s1.
    apply status_ok_bind.
    - destruct (doHexDumpFile v); [apply status_ok_read_from_file|].
      destruct (doReadFromFile v); [apply status_ok_read_from_file|].
      unfold bind, read_and_store_char_input, when, bind.
      destruct (interactive_flag v); cbn [print_out ret];
        match goal with
        | |- context [store_loop ?i ?a] =>
            destruct (store_loop i a) as [[[p n] i']|u]; exact I
        end.
    - intros r s2. apply status_ok_bind; [apply status_ok_call_formatter|].
      intros _ s3. left. reflexivity. }
  destruct (doHexDumpFile v).
  { unfold dump_file_action.
    apply status_ok_bind; [apply status_ok_read_from_file|].
    intros _ s1. left. reflexivity. }
  destruct (doOutputBadCharString v); [|reflexivity].
  unfold gen_badchar_action.
  apply status_ok_bind; [apply status_ok_banner|]. intros _ s1.
  apply status_ok_bind; [apply status_ok_call_formatter|].
  intros _ s2. left. reflexivity.
Qed.

(** When the process ends with an exit status, that is when the run is
    not cut short by undefined arithmetic (such as a width whose double
    is not an [int]), the status is 0 or 1: no call of [exit] and no
    return of [main] gives another one. *)
Theorem exit_status_zero_or_one (g : indeterminate) (inv : invocation)
  (n : Z) (s : streams) :
  run g inv = Exited n s -> n = 0 \/ n = 1.
Proof.
  unfold run_main, main, bind.
  destruct (option_loop_cases (argv0 inv) (parsed inv) (initial_vars g)
              (mkStreams [] [])) as [[v' Hv']|(m & err & Hx & Hm & _)].
  - rewrite Hv'.
    pose proof (status_ok_after_options inv v' (mkStreams [] [])) as H.
    destruct (after_options stdin_content fs junk inv v' (mkStreams [] []))
      as [z s1|m s1|u s1]; simpl in H; intros E;
      try discriminate E; injection E as <- _.
    + left. exact H.
    + exact H.
  - rewrite Hx. intros E. injection E as <- _. exact Hm.
Qed.

End OptionLoop.

Lemma output_lang_is_a_syntax_witness :
  let rs := [Returned 115 (Some (text "python")) 0;
             Returned 115 (Some (text "fortran")) 0] in
  let v' := mkVars false false false false false false false []
              2 (text "fortran") 0 in
  option_loop [] [] None (fun _ => 0) (text "bstrings") rs
    (initial_vars zeroed) (mkStreams [] [])
  = Ret v' (mkStreams [] [])
  /\ exists syn : syntax, output_lang v' = lang_code syn.
Proof.
  intros rs v'.
  assert (H : option_loop [] [] None (fun _ => 0) (text "bstrings") rs
                (initial_vars zeroed) (mkStreams [] [])
              = Ret v' (mkStreams [] [])) by reflexivity.
  split; [exact H|].
  exact (output_lang_is_a_syntax [] [] None (fun _ => 0) (text "bstrings")
           zeroed rs v' (mkStreams [] []) (mkStreams [] []) H).
Defined.

Lemma help_or_unknown_option_witness :
  forallb continues [Returned 120 None 0; Returned 119 (Some (text "4")) 0]
  = true
  /\ (104 = 104 \/ 104 = 63)
  /\ empty_world_run zeroed
       (mkInvocation 5 (text "bstrings")
          ([Returned 120 None 0; Returned 119 (Some (text "4")) 0]
           ++ Returned 104 None 0 :: [Returned 98 None 0]) 5)
     = Exited EXIT_FAILURE (mkStreams [] (print_usage (text "bstrings"))).
Proof.
  assert (H : 104 = 104 \/ 104 = 63) by (left; reflexivity).
  split; [reflexivity|]. split; [exact H|].
  exact (help_or_unknown_option [] [] None (fun _ => 0) [] (fun _ => None)
           (fun _ => NUL) zeroed (text "bstrings")
           [Returned 120 None 0; Returned 119 (Some (text "4")) 0]
           [Returned 98 None 0] 104 None 0 5 5 eq_refl H).
Defined.

Lemma version_option_witness :
  forallb continues [FlagStored verbose_flag_addr true] = true
  /\ run_main (text "1.0") [] None (fun _ => 0) [] (fun _ => None)
       (fun _ => NUL) zeroed
       (mkInvocation 3 (text "bstrings")
          ([FlagStored verbose_flag_addr true]
           ++ Returned 64 None 0 :: []) 3)
     = Exited EXIT_SUCCESS
         (mkStreams [] (print_version (text "1.0") [] None (text "bstrings"))).
Proof.
  split; [reflexivity|].
  exact (version_option (text "1.0") [] None (fun _ => 0) [] (fun _ => None)
           (fun _ => NUL) zeroed (text "bstrings")
           [FlagStored verbose_flag_addr true] [] None 0 3 3 eq_refl).
Defined.

Lemma missing_argument_option_witness :
  forallb continues [Returned 120 None 0] = true
  /\ empty_world_run zeroed
       (mkInvocation 3 (text "bstrings")
          ([Returned 120 None 0] ++ Returned 58 None 119 :: []) 3)
     = Exited EXIT_FAILURE
         (mkStreams [] (missing_argument (text "bstrings") 119)).
Proof.
  split; [reflexivity|].
  exact (missing_argument_option [] [] None (fun _ => 0) [] (fun _ => None)
           (fun _ => NUL) zeroed (text "bstrings")
           [Returned 120 None 0] [] None 119 3 3 eq_refl).
Defined.

Lemma stray_argument_suppresses_actions_witness :
  let inv := mkInvocation 3 (text "bstrings") [Returned 98 None 0] 2 in
  forallb continues (parsed inv) = true
  /\ (optind inv < argc inv \/ argc inv = 1)
  /\ empty_world_run zeroed inv
     = Exited EXIT_SUCCESS (mkStreams (print_usage (argv0 inv)) []).
Proof.
  intros inv.
  assert (H : optind inv < argc inv \/ argc inv = 1) by (left; reflexivity).
  split; [reflexivity|]. split; [exact H|].
  exact (stray_argument_suppresses_actions [] [] None (fun _ => 0) []
           (fun _ => None) (fun _ => NUL) zeroed inv eq_refl H).
Defined.

Lemma file_name_is_cut_witness :
  (68 = 68 \/ 68 = 102)
  /\ empty_world_run zeroed
       (mkInvocation 3 (text "bstrings")
          ([] ++ Returned 68 (Some (text "some/file")) 0 :: []) 3)
     = empty_world_run zeroed
         (mkInvocation 3 (text "bstrings")
            ([] ++ Returned 68 (Some (firstn 511 (text "some/file"))) 0
                :: []) 3).
Proof.
  assert (H : 68 = 68 \/ 68 = 102) by (left; reflexivity).
  split; [exact H|].
  exact (file_name_is_cut [] [] None (fun _ => 0) [] (fun _ => None)
           (fun _ => NUL) zeroed (text "bstrings") [] [] 68
           (text "some/file") 0 3 3 H).
Defined.

Lemma exit_status_zero_or_one_witness :
  let inv := mkInvocation 3 (text "bstrings")
               [Returned 68 (Some (text "nofile")) 0] 3 in
  empty_world_run zeroed inv
  = Exited 1 (mkStreams (cannot_be_read (text "nofile")) [])
  /\ (1 = 0 \/ 1 = 1).
Proof.
  intros inv.
  assert (H : empty_world_run zeroed inv
              = Exited 1 (mkStreams (cannot_be_read (text "nofile")) []))
    by reflexivity.
  split; [exact H|].
  exact (exit_status_zero_or_one [] [] None (fun _ => 0) [] (fun _ => None)
           (fun _ => NUL) zeroed inv 1
           (mkStreams (cannot_be_read (text "nofile")) []) H).
Defined.
